(** * img-host: upload and retrieval handlers over a blob store

    A shallow embedding of the request handlers of the image host:
    the Cloudflare worker ([Worker]: [fetch], [getAllowedOrigin],
    [handleOptions], [handleUpload], [handleGet]), the Go server
    ([Server]: [NewR2Service], [main], the [/upload] and [/:key] routes),
    the earlier Go server ([ServerLegacy]: [NewR2Service], [main],
    [/upload], [/files/:key]) and the browser client ([App]: [onDrop]).

    Strings are [string] (sequences of 8-bit code units), payloads are
    [list byte], the clock is an explicit integer input, and the object
    store is a finite map threaded through the handlers together with a
    script saying which of the upcoming store calls fail. *)

From Stdlib Require Import ZArith Ascii String List Lia.
From stdpp Require Import base option list gmap strings fin_maps.

Local Open Scope Z_scope.

(** ** Outcomes of effectful calls *)

(** A call either returns a value or raises (a JavaScript exception, a Go
    panic). *)
Inductive outcome (A : Type) : Type :=
| Returned (a : A)
| Thrown (e : string).
Arguments Returned {A} a.
Arguments Thrown {A} e.

(** Go's [(value, error)] pairs. *)
Inductive result (A : Type) : Type :=
| Ok (a : A)
| Err (e : string).
Arguments Ok {A} a.
Arguments Err {A} e.

(** ** Text primitives shared by both runtimes *)

Module Text.

Definition eqb (a b : string) : bool := bool_decide (a = b).

(** Characters from index [n] on; empty when [n] is past the end. *)
Fixpoint drop (n : nat) (s : string) : string :=
  match n, s with
  | O, _ => s
  | S _, EmptyString => EmptyString
  | S n', String _ s' => drop n' s'
  end.

(** The first [n] characters; the whole string when it is shorter. *)
Fixpoint take (n : nat) (s : string) : string :=
  match n, s with
  | O, _ => EmptyString
  | S _, EmptyString => EmptyString
  | S n', String c s' => String c (take n' s')
  end.

Definition len (s : string) : Z := Z.of_nat (String.length s).

Fixpoint contains (c : ascii) (s : string) : bool :=
  match s with
  | EmptyString => false
  | String a s' => if Ascii.eqb a c then true else contains c s'
  end.

Definition is_upper (c : ascii) : bool :=
  (65 <=? Z.of_N (N_of_ascii c)) && (Z.of_N (N_of_ascii c) <=? 90).

Definition lower_char (c : ascii) : ascii :=
  if is_upper c then ascii_of_N (N_of_ascii c + 32) else c.

(** ASCII lower-casing, as applied to header names. *)
Fixpoint lower (s : string) : string :=
  match s with
  | EmptyString => EmptyString
  | String c s' => String (lower_char c) (lower s')
  end.

Definition hex_digit (d : Z) : ascii :=
  match d with
  | 0 => "0" | 1 => "1" | 2 => "2" | 3 => "3" | 4 => "4" | 5 => "5"
  | 6 => "6" | 7 => "7" | 8 => "8" | 9 => "9" | 10 => "a" | 11 => "b"
  | 12 => "c" | 13 => "d" | 14 => "e" | _ => "f"
  end%char.

(** Hexadecimal digits of a non-negative integer, most significant
    first, without leading zeros; [fuel] bounds the number of digits. *)
Fixpoint hex_digits (fuel : nat) (n : Z) : string :=
  match fuel with
  | O => EmptyString
  | S fuel' =>
      if n <? 16 then String (hex_digit n) EmptyString
      else hex_digits fuel' (n / 16) +:+ String (hex_digit (n mod 16)) EmptyString
  end.

Definition hex_nonneg (n : Z) : string :=
  hex_digits (S (Z.to_nat (Z.log2 n))) n.

(** Lower-case hexadecimal rendering of an integer: sign, then
    magnitude.  This is both [Number.prototype.toString(16)] on an
    integral Number and Go's [%x] verb on an [int64]. *)
Definition hex (n : Z) : string :=
  if n <? 0 then String "-"%char (hex_nonneg (- n)) else hex_nonneg n.

(** Exactly [k] hexadecimal digits: [n mod 16^k], zero-padded. *)
Fixpoint hex_fixed (k : nat) (n : Z) : string :=
  match k with
  | O => EmptyString
  | S k' => hex_fixed k' (n / 16) +:+ String (hex_digit (n mod 16)) EmptyString
  end.

End Text.

(** ** JavaScript string and array primitives used by the worker *)

Module JS.

(** [s.split(sep)] for a one-character separator: never empty, and
    [[""]] on the empty string. *)
Fixpoint split (sep : ascii) (s : string) : list string :=
  match s with
  | EmptyString => [EmptyString]
  | String c s' =>
      if Ascii.eqb c sep then EmptyString :: split sep s'
      else match split sep s' with
           | seg :: segs => String c seg :: segs
           | [] => [String c EmptyString]
           end
  end.

(** [a.pop()]: the last element, [undefined] on an empty array. *)
Definition pop (a : list string) : option string := last a.

(** String concatenation coerces [undefined] to its name. *)
Definition to_string (v : option string) : string :=
  match v with
  | Some s => s
  | None => "undefined"
  end.

(** Index clamping of [String.prototype.slice]: a negative index counts
    from the end. *)
Definition clamp (len i : Z) : Z :=
  if i <? 0 then Z.max (len + i) 0 else Z.min i len.

(** [s.slice(start, end)]; [end] omitted means the length. *)
Definition slice (s : string) (start : Z) (end_ : option Z) : string :=
  let len := Text.len s in
  let from := clamp len start in
  let to := match end_ with Some e => clamp len e | None => len end in
  Text.take (Z.to_nat (Z.max (to - from) 0)) (Text.drop (Z.to_nat from) s).

(** [s.substring(start)] for a non-negative [start]. *)
Definition substring (s : string) (start : nat) : string := Text.drop start s.

Definition startsWith (s p : string) : bool := String.prefix p s.

Definition includes (a : list string) (x : string) : bool :=
  bool_decide (x ∈ a).

(** Truthiness of a string value. *)
Definition truthy (s : string) : bool := negb (Text.eqb s "").

(** [n.toString(16)] on an integral Number. *)
Definition toString16 (n : Z) : string := Text.hex n.

End JS.

(** ** Go standard-library functions used by the servers *)

Module Go.

Definition IsPathSeparator (c : ascii) : bool := Ascii.eqb c "/".

(** The loop of [filepath.Ext]: [n] is [i + 1]. *)
Fixpoint Ext_loop (path : string) (n : nat) : string :=
  match n with
  | O => EmptyString
  | S i =>
      match String.get i path with
      | Some c =>
          if IsPathSeparator c then EmptyString
          else if Ascii.eqb c "." then Text.drop i path
          else Ext_loop path i
      | None => EmptyString
      end
  end.

(** [filepath.Ext(path)]: the suffix beginning at the final dot of the
    final path element, or empty. *)
Definition Ext (path : string) : string :=
  Ext_loop path (String.length path).

Definition HasPrefix (s p : string) : bool := String.prefix p s.

Definition HasSuffix (s suffix : string) : bool :=
  (String.length suffix <=? String.length s)%nat &&
  Text.eqb (Text.drop (String.length s - String.length suffix) s) suffix.

(** [strings.TrimSuffix(s, suffix)]. *)
Definition TrimSuffix (s suffix : string) : string :=
  if HasSuffix s suffix
  then Text.take (String.length s - String.length suffix) s
  else s.

(** [fmt.Sprintf("%x", n)] on an [int64]. *)
Definition Sprintf_x (n : Z) : string := Text.hex n.

(** [s[n:]]: panics when [n] exceeds the length. *)
Definition slice_from (s : string) (n : nat) : outcome string :=
  if (n <=? String.length s)%nat then Returned (Text.drop n s)
  else Thrown "slice bounds out of range".

End Go.

(** ** HTTP messages *)

(** The [Headers] class: a map from header names to values in which
    names are case-insensitive (kept lower-cased). *)
Module Headers.

Definition empty : gmap string string := ∅.

Definition get (h : gmap string string) (name : string) : option string :=
  h !! Text.lower name.

Definition set (name value : string) (h : gmap string string)
  : gmap string string :=
  <[Text.lower name := value]> h.

Definition has (h : gmap string string) (name : string) : bool :=
  bool_decide (is_Some (get h name)).

(** [append] joins the values of a repeated name. *)
Definition append (name value : string) (h : gmap string string)
  : gmap string string :=
  match get h name with
  | Some old => set name (old +:+ ", " +:+ value) h
  | None => set name value h
  end.

(** Headers built from an object literal, field by field. *)
Definition of_list (fields : list (string * string)) : gmap string string :=
  fold_left (fun h f => append (fst f) (snd f) h) fields empty.

End Headers.

(** A response body.  [Json fields] stands for the text
    [JSON.stringify] (or Go's JSON encoder) produces for an object with
    these string fields. *)
Inductive Body : Type :=
| NoBody
| PlainText (s : string)
| Json (fields : list (string * string))
| Bytes (b : list Byte.byte).

Definition Json_field (b : Body) (k : string) : option string :=
  match b with
  | Json fields => snd <$> List.find (fun f => Text.eqb (fst f) k) fields
  | _ => None
  end.

Module Response.

Record t : Type := mk {
  status : Z;
  headers : gmap string string;
  body : Body
}.

End Response.

Module File.

(** An uploaded [File]: [type] is the content type declared by the
    multipart part, [stream] its bytes. *)
Record t : Type := mk {
  name : string;
  type : string;
  stream : list Byte.byte
}.

End File.

Inductive FormDataEntryValue : Type :=
| FieldString (s : string)
| FieldFile (f : File.t).

(** [formData.get(name)]: the first entry of that name, or [null]. *)
Fixpoint FormData_get (fd : list (string * FormDataEntryValue)) (name : string)
  : option FormDataEntryValue :=
  match fd with
  | [] => None
  | (k, v) :: fd' => if Text.eqb k name then Some v else FormData_get fd' name
  end.

Module Request.

(** A request as the worker sees it: [pathname] is
    [new URL(request.url).pathname]; [formData] is what
    [request.formData()] resolves to, [None] when it rejects (the body
    is not a form). *)
Record t : Type := mk {
  method : string;
  pathname : string;
  headers : gmap string string;
  formData : option (list (string * FormDataEntryValue))
}.

End Request.

(** ** The blob store *)

Module Store.

Record Object : Type := mkObject {
  body : list Byte.byte;
  contentType : option string;
  httpEtag : string
}.

(** The bucket: its objects, the etag the store assigns to a payload,
    and [script], the outcomes of the upcoming calls to the store
    client ([true]: the call fails; an exhausted script means every
    further call goes through). *)
Record t : Type := mk {
  objects : gmap string Object;
  script : list bool;
  etag_of : list Byte.byte -> string
}.

(** One call to the store client consumes one entry of the script. *)
Definition call (s : t) : bool * t :=
  match script s with
  | [] => (false, s)
  | failing :: rest => (failing, mk (objects s) rest (etag_of s))
  end.

Definition write (key : string) (o : Object) (s : t) : t :=
  mk (<[key := o]> (objects s)) (script s) (etag_of s).

(** [put(key, bytes, contentType)]: all or nothing. *)
Definition put (key : string) (bytes : list Byte.byte) (ct : string) (s : t)
  : result unit * t :=
  let (failing, s') := call s in
  if failing then (Err "store: put failed", s')
  else (Ok tt, write key (mkObject bytes (Some ct) (etag_of s' bytes)) s').

(** [get(key)]: the object, nothing when the key is absent, or a
    failure of the call itself. *)
Definition get (key : string) (s : t) : result (option Object) * t :=
  let (failing, s') := call s in
  if failing then (Err "store: get failed", s')
  else (Ok (objects s' !! key), s').

End Store.

(** ** Store-threading computations that may raise *)

Definition M (A : Type) : Type := Store.t -> outcome A * Store.t.

Global Instance M_ret : MRet M := fun A a s => (Returned a, s).

Global Instance M_bind : MBind M := fun A B f m s =>
  match m s with
  | (Returned a, s') => f a s'
  | (Thrown e, s') => (Thrown e, s')
  end.

Definition throw {A : Type} (e : string) : M A := fun s => (Thrown e, s).

(** [try { m } catch (error) { handler error }]. *)
Definition try_catch {A : Type} (m : M A) (handler : string -> M A) : M A :=
  fun s =>
    match m s with
    | (Returned a, s') => (Returned a, s')
    | (Thrown e, s') => handler e s'
    end.

(** A promise of the store binding: rejection becomes an exception at
    the [await]. *)
Definition await {A : Type} (call : Store.t -> result A * Store.t) : M A :=
  fun s =>
    match call s with
    | (Ok a, s') => (Returned a, s')
    | (Err e, s') => (Thrown e, s')
    end.

(** ** The worker *)

Module Worker.

Definition ALLOWED_ORIGINS : list string :=
  ["https://img.jer.ee"; "http://localhost:3000"].

(** [new Response(body, { status, headers })]: the status defaults to
    200, and a textual body without a declared content type gets the
    platform's default one. *)
Definition new_Response (body : Body) (status : option Z)
    (headers : gmap string string) : Response.t :=
  let textual := match body with PlainText _ | Json _ => true | _ => false end in
  Response.mk (default 200 status)
    (if textual && negb (Headers.has headers "Content-Type")
     then Headers.set "Content-Type" "text/plain;charset=UTF-8" headers
     else headers)
    body.

Definition getAllowedOrigin (request : Request.t) : string :=
  match Headers.get (Request.headers request) "Origin" with
  | Some origin =>
      if JS.truthy origin && JS.includes ALLOWED_ORIGINS origin then origin
      else JS.to_string (ALLOWED_ORIGINS !! 0%nat)
  | None => JS.to_string (ALLOWED_ORIGINS !! 0%nat)
  end.

Definition handleOptions (_request : Request.t) : M Response.t :=
  mret (new_Response NoBody None
    (Headers.of_list
       [("Access-Control-Allow-Origin", getAllowedOrigin _request);
        ("Access-Control-Allow-Methods", "GET, POST, OPTIONS");
        ("Access-Control-Allow-Headers", "Content-Type, Accept")])).

(** The bindings [ext], [name], [hash] and [filename] of
    [handleUpload], with [Date.now()] as the input [now]. *)
Definition ext (file_name : string) : string :=
  "." +:+ JS.to_string (JS.pop (JS.split "." file_name)).

Definition name (file_name : string) : string :=
  JS.slice file_name 0 (Some (- Text.len (ext file_name))).

Definition hash (now : Z) : string :=
  JS.slice (JS.toString16 now) (-8) None.

Definition filename (file_name : string) (now : Z) : string :=
  name file_name +:+ "-" +:+ hash now +:+ ext file_name.

Definition json_headers (request : Request.t) : gmap string string :=
  Headers.of_list
    [("Content-Type", "application/json");
     ("Access-Control-Allow-Origin", getAllowedOrigin request)].

Definition handleUpload (request : Request.t) (now : Z) : M Response.t :=
  try_catch
    (formData ← (match Request.formData request with
                 | Some fd => mret fd
                 | None => throw "TypeError: body is not form data"
                 end);
     match FormData_get formData "file" with
     | Some (FieldFile file) =>
         if negb (JS.startsWith (File.type file) "image/") then
           mret (new_Response (Json [("error", "Only image files are allowed")])
                   (Some 400) (json_headers request))
         else
           let filename := filename (File.name file) now in
           _ ← await (Store.put filename (File.stream file) (File.type file));
           mret (new_Response
                   (Json [("message", "Image uploaded successfully");
                          ("filename", filename)])
                   None (json_headers request))
     | _ =>
         mret (new_Response (Json [("error", "File is required")])
                 (Some 400) (json_headers request))
     end)
    (fun error =>
       mret (new_Response (Json [("error", "Failed to upload file")])
               (Some 500) (json_headers request))).

(** [object.writeHttpMetadata(headers)] for the metadata this worker
    stores: the content type, when recorded. *)
Definition writeHttpMetadata (object : Store.Object)
    (headers : gmap string string) : gmap string string :=
  match Store.contentType object with
  | Some ct => Headers.set "Content-Type" ct headers
  | None => headers
  end.

Definition handleGet (request : Request.t) (key : string) : M Response.t :=
  object ← await (Store.get key);
  match object with
  | None =>
      mret (new_Response (PlainText "Object Not Found") (Some 404)
              (Headers.of_list
                 [("Access-Control-Allow-Origin", getAllowedOrigin request)]))
  | Some object =>
      let headers := Headers.empty in
      let headers := writeHttpMetadata object headers in
      let headers := Headers.set "etag" (Store.httpEtag object) headers in
      let headers :=
        Headers.set "Access-Control-Allow-Origin" (getAllowedOrigin request)
          headers in
      mret (new_Response (Bytes (Store.body object)) None headers)
  end.

Definition fetch (request : Request.t) (now : Z) : M Response.t :=
  if Text.eqb (Request.method request) "OPTIONS" then handleOptions request
  else
    let key := JS.substring (Request.pathname request) 5 in
    if Text.eqb (Request.method request) "POST" then
      if Text.eqb (Request.pathname request) "/img/upload"
      then handleUpload request now
      else mret (new_Response (PlainText "Not Found") (Some 404) Headers.empty)
    else if Text.eqb (Request.method request) "GET" then
      handleGet request key
    else
      mret (new_Response (PlainText "Method Not Allowed") (Some 405)
              (Headers.of_list
                 [("Allow", "GET, POST");
                  ("Access-Control-Allow-Origin", getAllowedOrigin request)])).

End Worker.

(** ** The Go server: what both versions share *)

Module Fiber.

(** What opening and reading the uploaded part yields. *)
Inductive FileData : Type :=
| OpenFails
| ReadFails
| Readable (contents : list Byte.byte).

(** [multipart.FileHeader]. *)
Record FileHeader : Type := mkFileHeader {
  Filename : string;
  Header : gmap string string;
  data : FileData
}.

(** The request context: [multipart] is the parsed form's files, [None]
    when the request carries no multipart form. *)
Record Ctx : Type := mkCtx {
  multipart : option (list (string * FileHeader))
}.

Fixpoint first_file (files : list (string * FileHeader)) (key : string)
  : option FileHeader :=
  match files with
  | [] => None
  | (k, fh) :: files' => if Text.eqb k key then Some fh else first_file files' key
  end.

(** [c.FormFile(key)]. *)
Definition FormFile (c : Ctx) (key : string) : result FileHeader :=
  match multipart c with
  | None => Err "request has no multipart/form-data Content-Type"
  | Some files =>
      match first_file files key with
      | Some fh => Ok fh
      | None => Err "there is no uploaded file associated with the given key"
      end
  end.

(** [fileHeader.Header.Get(name)]: empty when absent. *)
Definition Header_Get (fh : FileHeader) (name : string) : string :=
  default "" (Headers.get (Header fh) name).

(** [c.Status(code).JSON(fiber.Map{...})]; the encoder writes the keys
    in sorted order. *)
Definition JSON (code : Z) (fields : list (string * string)) : Response.t :=
  Response.mk code (Headers.set "Content-Type" "application/json" Headers.empty)
    (Json fields).

(** [c.Set("Content-Type", contentType)] followed by [c.Send(file)]. *)
Definition Send (contentType : string) (file : list Byte.byte) : Response.t :=
  Response.mk 200 (Headers.set "Content-Type" contentType Headers.empty)
    (Bytes file).

Definition StatusBadRequest : Z := 400.
Definition StatusInternalServerError : Z := 500.
Definition StatusOK : Z := 200.

End Fiber.

Module S3.

Record S3Service : Type := mkS3Service {
  account : string;
  accessKey : string;
  secretKey : string;
  bucket : string
}.

(** [UploadFileToR2]: the error of [PutObject], if any. *)
Definition UploadFileToR2 (s : S3Service) (key : string)
    (file : list Byte.byte) (contentType : string) (st : Store.t)
  : option string * Store.t :=
  match Store.put key file contentType st with
  | (Ok _, st') => (None, st')
  | (Err e, st') => (Some e, st')
  end.

(** [GetFileFromR2]: [GetObject] reports an absent key as an error;
    [aws.ToString] turns a missing content type into the empty
    string. *)
Definition GetFileFromR2 (s : S3Service) (key : string) (st : Store.t)
  : result (list Byte.byte * string) * Store.t :=
  match Store.get key st with
  | (Ok (Some o), st') =>
      (Ok (Store.body o, default "" (Store.contentType o)), st')
  | (Ok None, st') => (Err "NoSuchKey", st')
  | (Err e, st') => (Err e, st')
  end.

End S3.

(** ** The Go server *)

Module Server.
Import Fiber S3.

Definition Getenv (env : gmap string string) (key : string) : string :=
  default "" (env !! key).

(** The variables [NewR2Service] reads. *)
Definition credentials : list string :=
  ["CLOUDFLARE_ACCOUNT_ID"; "CLOUDFLARE_ACCESS_KEY_ID";
   "CLOUDFLARE_ACCESS_KEY_SECRET"; "CLOUDFLARE_BUCKET_NAME"].

(** [godotenv.Load()]: [dotenv] is the content of the [.env] file, [None]
    when it cannot be read or parsed; variables already set in the
    environment are kept. *)
Definition godotenv_Load (dotenv : option (gmap string string))
    (env : gmap string string) : result (gmap string string) :=
  match dotenv with
  | None => Err "open .env: no such file or directory"
  | Some vars => Ok (env ∪ vars)
  end.

(** How start-up ends: in [log.Fatal], or with the listener up and the
    routes serving requests through a service. *)
Inductive Process : Type :=
| Fatal (msg : string)
| Listening (svc : S3Service) (addr : string).

(** [NewR2Service]: [sdk] is the outcome of
    [config.LoadDefaultConfig], on whose error the function itself
    calls [log.Fatal] (rendered as [Thrown]). *)
Definition NewR2Service (env : gmap string string) (sdk : result unit)
  : outcome (result S3Service) :=
  let account := Getenv env "CLOUDFLARE_ACCOUNT_ID" in
  let accessKey := Getenv env "CLOUDFLARE_ACCESS_KEY_ID" in
  let secretKey := Getenv env "CLOUDFLARE_ACCESS_KEY_SECRET" in
  let bucket := Getenv env "CLOUDFLARE_BUCKET_NAME" in
  if Text.eqb account "" || Text.eqb accessKey "" ||
     Text.eqb secretKey "" || Text.eqb bucket ""
  then Returned (Err "missing required environment variables")
  else match sdk with
       | Err e => Thrown e
       | Ok _ => Returned (Ok (mkS3Service account accessKey secretKey bucket))
       end.

(** [main]: [listen] is the outcome of [app.Listen(":8081")]: an error
    when the listener cannot be started, which [log.Fatal] reports;
    otherwise the call serves requests and does not return. *)
Definition main (dotenv : option (gmap string string))
    (env : gmap string string) (sdk : result unit) (listen : result unit)
  : Process :=
  match godotenv_Load dotenv env with
  | Err _ => Fatal "Error loading .env file"
  | Ok env =>
      match NewR2Service env sdk with
      | Thrown e => Fatal e
      | Returned (Err err) => Fatal ("Error initializing R2 service: " +:+ err)
      | Returned (Ok s3Service) =>
          match listen with
          | Err e => Fatal e
          | Ok _ => Listening s3Service ":8081"
          end
      end
  end.

(** The bindings [ext], [name], [hash] and [filename] of the upload
    route, with [time.Now().UnixNano()] as the input [now]. *)
Definition ext (Filename : string) : string := Go.Ext Filename.

Definition name (Filename : string) : string :=
  Go.TrimSuffix Filename (ext Filename).

Definition hash (now : Z) : outcome string :=
  Go.slice_from (Go.Sprintf_x now) 8.

Definition filename (Filename : string) (hash : string) : string :=
  name Filename +:+ "-" +:+ hash +:+ ext Filename.

(** [app.Post("/upload", ...)]. *)
Definition upload (s3Service : S3Service) (c : Ctx) (now : Z) (st : Store.t)
  : outcome Response.t * Store.t :=
  match FormFile c "file" with
  | Err _ =>
      (Returned (JSON StatusBadRequest [("error", "File is required")]), st)
  | Ok fileHeader =>
      let contentType := Header_Get fileHeader "Content-Type" in
      if negb (Go.HasPrefix contentType "image/") then
        (Returned (JSON StatusBadRequest
                     [("error", "Only image files are allowed")]), st)
      else
        match data fileHeader with
        | OpenFails =>
            (Returned (JSON StatusInternalServerError
                         [("error", "Failed to open file")]), st)
        | ReadFails =>
            (Returned (JSON StatusInternalServerError
                         [("error", "Failed to read file")]), st)
        | Readable buf =>
            match hash now with
            | Thrown e => (Thrown e, st)
            | Returned hash =>
                let filename := filename (Filename fileHeader) hash in
                match UploadFileToR2 s3Service filename buf contentType st with
                | (Some _, st') =>
                    (Returned (JSON StatusInternalServerError
                                 [("error", "Failed to upload file")]), st')
                | (None, st') =>
                    (Returned (JSON StatusOK
                                 [("filename", filename);
                                  ("message", "Image uploaded successfully")]),
                     st')
                end
            end
        end
  end.

(** [app.Get("/:key", ...)]. *)
Definition get (s3Service : S3Service) (key : string) (st : Store.t)
  : Response.t * Store.t :=
  match GetFileFromR2 s3Service key st with
  | (Err _, st') =>
      (JSON StatusInternalServerError [("error", "Failed to retrieve file")],
       st')
  | (Ok (file, contentType), st') => (Send contentType file, st')
  end.

End Server.

(** ** The earlier Go server *)

Module ServerLegacy.
Import Fiber S3.

(** [app.Post("/upload", ...)]: no content-type check, and the object
    is stored under the uploaded file's own name. *)
Definition upload (s3Service : S3Service) (c : Ctx) (st : Store.t)
  : Response.t * Store.t :=
  match FormFile c "file" with
  | Err _ => (JSON StatusBadRequest [("error", "File is required")], st)
  | Ok fileHeader =>
      match data fileHeader with
      | OpenFails =>
          (JSON StatusInternalServerError [("error", "Failed to open file")], st)
      | ReadFails =>
          (JSON StatusInternalServerError [("error", "Failed to read file")], st)
      | Readable buf =>
          match UploadFileToR2 s3Service (Filename fileHeader) buf
                  (Header_Get fileHeader "Content-Type") st with
          | (Some _, st') =>
              (JSON StatusInternalServerError
                 [("error", "Failed to upload file")], st')
          | (None, st') =>
              (JSON StatusOK [("message", "File uploaded successfully")], st')
          end
      end
  end.

(** [app.Get("/files/:key", ...)]. *)
Definition get (s3Service : S3Service) (key : string) (st : Store.t)
  : Response.t * Store.t :=
  match GetFileFromR2 s3Service key st with
  | (Err _, st') =>
      (JSON StatusInternalServerError [("error", "Failed to retrieve file")],
       st')
  | (Ok (file, contentType), st') => (Send contentType file, st')
  end.

(** The variables the earlier [NewR2Service] reads. *)
Definition credentials : list string :=
  ["CLOUDFLARE_ACCOUNT_ID"; "CLOUDFLARE_ACCESS_KEY_ID";
   "CLOUDFLARE_SECRET_ACCESS_KEY"; "CLOUDFLARE_BUCKET_NAME"].

(** The earlier [NewR2Service]: an error of [config.LoadDefaultConfig]
    ([sdk]) is returned to the caller. *)
Definition NewR2Service (env : gmap string string) (sdk : result unit)
  : result S3Service :=
  let account := Server.Getenv env "CLOUDFLARE_ACCOUNT_ID" in
  let accessKey := Server.Getenv env "CLOUDFLARE_ACCESS_KEY_ID" in
  let secretKey := Server.Getenv env "CLOUDFLARE_SECRET_ACCESS_KEY" in
  let bucket := Server.Getenv env "CLOUDFLARE_BUCKET_NAME" in
  if Text.eqb account "" || Text.eqb accessKey "" ||
     Text.eqb secretKey "" || Text.eqb bucket ""
  then Err "missing required environment variables"
  else match sdk with
       | Err e => Err e
       | Ok _ => Ok (mkS3Service account accessKey secretKey bucket)
       end.

(** The earlier [main]: [listen] is the outcome of
    [app.Listen(":3000")], an error being reported by [log.Fatal]. *)
Definition main (dotenv : option (gmap string string))
    (env : gmap string string) (sdk : result unit) (listen : result unit)
  : Server.Process :=
  match Server.godotenv_Load dotenv env with
  | Err _ => Server.Fatal "Error loading .env file"
  | Ok env =>
      match NewR2Service env sdk with
      | Err err => Server.Fatal err
      | Ok s3Service =>
          match listen with
          | Err e => Server.Fatal e
          | Ok _ => Server.Listening s3Service ":3000"
          end
      end
  end.

End ServerLegacy.

(** ** The browser client *)

Module App.

(** The component's state. *)
Record State : Type := mkState {
  imageUrl : string;
  error : string;
  isUploading : bool
}.

(** Notifications; the argument of [toast.success] is [data.message],
    possibly [undefined]. *)
Inductive Toast : Type :=
| toast_success (message : option string)
| toast_error (message : string).

(** [response.ok]. *)
Definition ok (response : Response.t) : bool :=
  (200 <=? Response.status response) && (Response.status response <=? 299).

(** [response.json()]: the object of a JSON body; any other body of this
    system (absent, plain text, image bytes) makes it reject. *)
Definition json (response : Response.t) : outcome (list (string * string)) :=
  match Response.body response with
  | Json fields => Returned fields
  | _ => Thrown "SyntaxError: body is not JSON"
  end.

Definition field (data : list (string * string)) (k : string) : option string :=
  Json_field (Json data) k.

(** What the browser hands to the page's [fetch] for an answer to the
    upload (a request without preflight): the answer to a cross-origin
    request is withheld, the promise rejecting, unless its
    [Access-Control-Allow-Origin] is the page's origin or the wildcard;
    an exception of the server reaches the page as a failure too. *)
Definition delivered (origin : string) (cross_origin : bool)
    (answer : outcome Response.t) : outcome Response.t :=
  match answer with
  | Returned response =>
      let allowed :=
        match Headers.get (Response.headers response)
                "Access-Control-Allow-Origin" with
        | Some o => Text.eqb o origin || Text.eqb o "*"
        | None => false
        end in
      if cross_origin && negb allowed then Thrown "TypeError: Failed to fetch"
      else Returned response
  | Thrown e => Thrown e
  end.

(** [onDrop]: [fetch method url body] is the network, which answers or
    fails; the result is the state once all setters have run, with the
    notifications shown. *)
Definition onDrop (VITE_API_URL : string) (acceptedFiles : list File.t)
    (fetch : string -> string -> list (string * FormDataEntryValue) ->
             outcome Response.t)
    (st : State) : State * list Toast :=
  match acceptedFiles !! 0%nat with
  | None => (st, [])
  | Some file =>
      let formData := [("file", FieldFile file)] in
      let data :=
        match fetch "POST" (VITE_API_URL +:+ "/upload") formData with
        | Thrown e => Thrown e
        | Returned response =>
            if negb (ok response) then Thrown "Upload failed"
            else json response
        end in
      match data with
      | Returned data =>
          let fullImageUrl :=
            VITE_API_URL +:+ "/" +:+ JS.to_string (field data "filename") in
          (mkState fullImageUrl "" false, [toast_success (field data "message")])
      | Thrown err =>
          (mkState (imageUrl st) "Failed to upload image. Please try again."
             false,
           [toast_error "Upload failed"])
      end
  end.

End App.

(** ** Character classes *)

Definition is_hex_char (c : ascii) : bool :=
  Text.contains c "0123456789abcdef".

Fixpoint all_chars (p : ascii -> bool) (s : string) : bool :=
  match s with
  | EmptyString => true
  | String c s' => p c && all_chars p s'
  end.

(** ** Path segments of an address *)

Module URL.

(** Letters, digits and [-], [.], [_], [~]: the characters a URL parser
    leaves as they are everywhere. *)
Definition unreserved (c : ascii) : bool :=
  Text.contains c
    "ABCDEFGHIJKLMNOPQRSTUVWXYZabcdefghijklmnopqrstuvwxyz0123456789-._~".

(** Percent-encoding of the spaces of a segment. *)
Fixpoint escape (s : string) : string :=
  match s with
  | EmptyString => EmptyString
  | String c s' =>
      if Ascii.eqb c " " then "%20" +:+ escape s' else String c (escape s')
  end.

(** Whether the last character is a space. *)
Fixpoint ends_with_space (s : string) : bool :=
  match s with
  | EmptyString => false
  | String c s' =>
      match s' with
      | EmptyString => Ascii.eqb c " "
      | String _ _ => ends_with_space s'
      end
  end.

(** The text that [new URL(...).pathname] holds for the last path segment
    of an address, written with unreserved characters and spaces: the
    spaces are percent-encoded, the rest is kept.  [None] for a dot
    segment, for a segment ending in a space (the parser strips the end
    of its input) and for any other character, whose treatment by the
    parser is not modelled. *)
Definition segment (s : string) : option string :=
  if all_chars (fun c => unreserved c || Ascii.eqb c " ") s &&
     negb (Text.eqb s ".") && negb (Text.eqb s "..") &&
     negb (ends_with_space s)
  then Some (escape s)
  else None.

End URL.

(** ** Key derivation as the specification words it *)

Module Spec.

(** The substring from the last dot on, dot included; empty when the
    name has no dot. *)
Fixpoint ext (filename : string) : string :=
  match filename with
  | EmptyString => EmptyString
  | String c rest =>
      if Text.contains "." rest then ext rest
      else if Ascii.eqb c "." then filename
      else EmptyString
  end.

(** The name with [ext] removed. *)
Definition base (filename : string) : string :=
  Text.take (String.length filename - String.length (ext filename)) filename.

Definition key (filename suffix : string) : string :=
  base filename +:+ "-" +:+ suffix +:+ ext filename.

(** A valid image upload: the form has a file under [file] whose
    declared content type starts with [image/]. *)
Definition valid_image_upload (request : Request.t) (file : File.t) : Prop :=
  (exists fd, Request.formData request = Some fd /\
              FormData_get fd "file" = Some (FieldFile file)) /\
  JS.startsWith (File.type file) "image/" = true.

(** The form was parsed and carries no file under [file]. *)
Definition no_file (request : Request.t) : Prop :=
  exists fd, Request.formData request = Some fd /\
    forall f, FormData_get fd "file" <> Some (FieldFile f).

(** The allow-list rule: the request's origin when listed, the first
    entry of the list otherwise. *)
Definition allowed_origin (allow : list string) (origin : option string)
  : option string :=
  match origin with
  | Some o => if bool_decide (o ∈ allow) then Some o else head allow
  | None => head allow
  end.

(** A variable is missing from the environment when it is unset or set
    to the empty string. *)
Definition missing (env : gmap string string) (key : string) : Prop :=
  env !! key = None \/ env !! key = Some "".

(** Some required storage credential is missing. *)
Definition credential_missing (env : gmap string string) : Prop :=
  exists key, key ∈ Server.credentials /\ missing env key.

(** The object a successful put of [file] leaves in the bucket [st]. *)
Definition stored (file : File.t) (st : Store.t) : Store.Object :=
  Store.mkObject (File.stream file) (Some (File.type file))
    (Store.etag_of st (File.stream file)).

End Spec.

(** ** Shapes of the handlers' answers *)

(** The worker's answers to an upload. *)
Definition upload_ok (request : Request.t) (key : string) : Response.t :=
  Worker.new_Response
    (Json [("message", "Image uploaded successfully"); ("filename", key)])
    None (Worker.json_headers request).

Definition upload_error (request : Request.t) (code : Z) (msg : string)
  : Response.t :=
  Worker.new_Response (Json [("error", msg)]) (Some code)
    (Worker.json_headers request).

(** An upload answered with [code] and the JSON body [{error: msg}],
    the store being left as it was (no call made to it). *)
Definition rejected (out : outcome Response.t * Store.t) (st : Store.t)
    (code : Z) (msg : string) : Prop :=
  exists response,
    out = (Returned response, st) /\
    Response.status response = code /\
    Response.body response = Json [("error", msg)].

(** Header lookups on the literal header sets of the worker: the values
    are kept abstract and the names evaluated. *)
Ltac header_lookup :=
  repeat match goal with
         | |- context [Worker.getAllowedOrigin ?r] =>
             generalize (Worker.getAllowedOrigin r); intro
         end;
  vm_compute; reflexivity.

(** * Properties *)

(** ** Sample evaluations *)

Example hex_of_clock : Text.hex 1730619000000 = "192f0ee44c0".
Proof. reflexivity. Qed.

Example split_archive : JS.split "." "a.b.tar.gz" = ["a"; "b"; "tar"; "gz"].
Proof. reflexivity. Qed.

Example filename_cat : Worker.filename "cat.jpg" 1730619000000 = "cat-f0ee44c0.jpg".
Proof. reflexivity. Qed.

Example filename_archive :
  Worker.filename "a.b.tar.gz" 1730619000000 = "a.b.tar-f0ee44c0.gz".
Proof. reflexivity. Qed.

Example filename_trailing_dot :
  Worker.filename "photo." 1730619000000 = "photo-f0ee44c0.".
Proof. reflexivity. Qed.

Example Ext_stops_at_separator : Go.Ext "a.b/c" = "".
Proof. reflexivity. Qed.

Example Server_hash_of_clock :
  Server.hash 1730619000000000000 = Returned "b08ab000".
Proof. reflexivity. Qed.

Example Server_hash_short_clock :
  Server.hash 1000 = Thrown "slice bounds out of range".
Proof. reflexivity. Qed.

Example Server_filename_plain :
  Server.filename "README" "b08ab000" = "README-b08ab000".
Proof. reflexivity. Qed.

Example preflight_from_localhost :
  exists response st,
    Worker.fetch
      (Request.mk "OPTIONS" "/img/upload"
         (Headers.of_list [("Origin", "http://localhost:3000")]) None)
      0 (Store.mk ∅ [] (fun _ => "")) = (Returned response, st) /\
    Response.status response = 200 /\
    Response.body response = NoBody /\
    Headers.get (Response.headers response) "Access-Control-Allow-Origin"
    = Some "http://localhost:3000" /\
    Headers.get (Response.headers response) "Access-Control-Allow-Methods"
    = Some "GET, POST, OPTIONS".
Proof. eexists _, _. repeat split. Qed.

(** ** Basic facts *)

Lemma eqb_true a b : Text.eqb a b = true <-> a = b.
Proof. unfold Text.eqb. apply bool_decide_eq_true. Qed.

Lemma eqb_false a b : Text.eqb a b = false <-> a <> b.
Proof. unfold Text.eqb. apply bool_decide_eq_false. Qed.

Lemma eqb_refl a : Text.eqb a a = true.
Proof. apply eqb_true. reflexivity. Qed.

(** The monad's equations, as rewriting rules. *)
Lemma bind_returned {A B} (m : M A) (f : A -> M B) s a s' :
  m s = (Returned a, s') -> (m ≫= f) s = f a s'.
Proof. intros H. unfold mbind, M_bind. rewrite H. reflexivity. Qed.

Lemma bind_thrown {A B} (m : M A) (f : A -> M B) s e s' :
  m s = (Thrown e, s') -> (m ≫= f) s = (Thrown e, s').
Proof. intros H. unfold mbind, M_bind. rewrite H. reflexivity. Qed.

(** ** Strings *)

Lemma app_nil_l s : "" +:+ s = s.
Proof. reflexivity. Qed.

Lemma app_cons c s t : String c s +:+ t = String c (s +:+ t).
Proof. reflexivity. Qed.

Lemma app_nil_r s : s +:+ "" = s.
Proof. induction s as [|c s IH]; [reflexivity|]. rewrite app_cons, IH. reflexivity. Qed.

Lemma app_assoc a b c : (a +:+ b) +:+ c = a +:+ (b +:+ c).
Proof.
  induction a as [|x a IH]; [reflexivity|]. rewrite !app_cons, IH. reflexivity.
Qed.

Lemma length_app a b :
  String.length (a +:+ b) = (String.length a + String.length b)%nat.
Proof.
  induction a as [|x a IH]; [reflexivity|]. rewrite app_cons. cbn. rewrite IH.
  reflexivity.
Qed.

Lemma take_app a b : Text.take (String.length a) (a +:+ b) = a.
Proof.
  induction a as [|x a IH]; [reflexivity|]. rewrite app_cons. cbn. rewrite IH.
  reflexivity.
Qed.

Lemma drop_app a b : Text.drop (String.length a) (a +:+ b) = b.
Proof. induction a as [|x a IH]; [reflexivity|]. rewrite app_cons. exact IH. Qed.

Lemma take_all s n : (String.length s <= n)%nat -> Text.take n s = s.
Proof.
  revert n. induction s as [|c s IH]; intros [|n] H; cbn in *; try reflexivity;
    try lia. rewrite IH by lia. reflexivity.
Qed.

Lemma app_inj_r a b e : a +:+ e = b +:+ e -> a = b.
Proof.
  intros H.
  assert (String.length a = String.length b) as Hlen.
  { apply (f_equal String.length) in H. rewrite !length_app in H. lia. }
  revert b H Hlen. induction a as [|x a IH]; intros [|y b] H Hlen;
    cbn in Hlen; try discriminate; [reflexivity|].
  rewrite !app_cons in H. inversion H; subst. f_equal. apply IH; [assumption|lia].
Qed.

Lemma snoc_inj s t c d :
  s +:+ String c "" = t +:+ String d "" -> s = t /\ c = d.
Proof.
  revert t. induction s as [|x s IH]; intros [|y t] H.
  - inversion H. split; reflexivity.
  - rewrite app_nil_l, app_cons in H. inversion H as [[Hc Ht]].
    destruct t; discriminate.
  - rewrite app_nil_l, app_cons in H. inversion H as [[Hc Ht]].
    destruct s; discriminate.
  - rewrite !app_cons in H. inversion H; subst.
    destruct (IH t) as [-> ->]; [assumption|]. split; reflexivity.
Qed.

Lemma contains_app c a b :
  Text.contains c (a +:+ b) = Text.contains c a || Text.contains c b.
Proof.
  induction a as [|x a IH]; [reflexivity|]. rewrite app_cons. cbn.
  destruct (Ascii.eqb x c); [reflexivity|exact IH].
Qed.

Lemma get_app_length a c b : String.get (String.length a) (a +:+ String c b) = Some c.
Proof. induction a as [|x a IH]; [reflexivity|]. rewrite app_cons. exact IH. Qed.

(** A non-empty string ends in a character. *)
Lemma snoc_inv s n :
  String.length s = S n ->
  exists s' c, s = s' +:+ String c "" /\ String.length s' = n.
Proof.
  revert n. induction s as [|x s IH]; intros n H; [discriminate|].
  cbn in H. destruct s as [|y s].
  - exists "", x. split; [reflexivity|]. cbn in *. lia.
  - destruct n as [|n]; [discriminate|].
    destruct (IH n) as (s' & c & E & Hlen); [cbn in *; lia|].
    exists (String x s'), c. rewrite app_cons, <- E. split; [reflexivity|].
    cbn. lia.
Qed.

(** ** The extension, as specified *)

Lemma ext_plain f : Text.contains "." f = false -> Spec.ext f = "".
Proof.
  induction f as [|c f IH]; [reflexivity|]. cbn.
  destruct (Ascii.eqb c ".") eqn:Hc; [discriminate|]. intros H.
  rewrite H. reflexivity.
Qed.

(** The extension is a suffix of the name. *)
Lemma ext_suffix f : exists b, f = b +:+ Spec.ext f.
Proof.
  induction f as [|c f [b IH]]; [exists ""; reflexivity|]. cbn.
  destruct (Text.contains "." f).
  - exists (String c b). rewrite app_cons, <- IH. reflexivity.
  - destruct (Ascii.eqb c ".").
    + exists "". reflexivity.
    + exists (String c f). rewrite app_nil_r. reflexivity.
Qed.

Lemma base_ext f : Spec.base f +:+ Spec.ext f = f.
Proof.
  unfold Spec.base. destruct (ext_suffix f) as [b E].
  assert (String.length f - String.length (Spec.ext f) = String.length b)%nat as ->.
  { rewrite E at 1. rewrite length_app. lia. }
  rewrite E at 1. rewrite take_app. symmetry. exact E.
Qed.

Lemma ext_length f : (String.length (Spec.ext f) <= String.length f)%nat.
Proof. destruct (ext_suffix f) as [b E]. rewrite E at 2. rewrite length_app. lia. Qed.

Lemma ext_app_plain s t :
  Text.contains "." t = false ->
  Spec.ext (s +:+ t) = if Text.contains "." s then Spec.ext s +:+ t else "".
Proof.
  intros Ht. induction s as [|c s IH]; [apply ext_plain; assumption|].
  rewrite app_cons. cbn. rewrite contains_app, Ht, orb_false_r.
  destruct (Text.contains "." s).
  - rewrite IH. destruct (Ascii.eqb c "."); reflexivity.
  - destruct (Ascii.eqb c "."); [rewrite app_cons|]; reflexivity.
Qed.

Lemma ext_app_dot s t :
  Text.contains "." t = false ->
  Spec.ext (s +:+ String "." t) = String "." t.
Proof.
  intros Ht. induction s as [|c s IH].
  - rewrite app_nil_l. cbn. rewrite Ht. reflexivity.
  - rewrite app_cons. cbn. rewrite contains_app. cbn.
    rewrite orb_true_r. exact IH.
Qed.

Lemma Spec_key_plain f suffix :
  Text.contains "." f = false -> Spec.key f suffix = f +:+ "-" +:+ suffix.
Proof.
  intros H. unfold Spec.key, Spec.base. rewrite (ext_plain f H).
  rewrite Nat.sub_0_r, take_all by lia. rewrite app_nil_r. reflexivity.
Qed.

(** ** The worker's [ext] and [name] *)

(** What [split] yields: the name itself when it has no dot, and
    otherwise several segments the last of which is the specified
    extension without its dot. *)
Lemma split_dot f :
  if Text.contains "." f
  then exists seg segs l,
      JS.split "." f = seg :: segs /\ last segs = Some l /\
      Spec.ext f = String "." l
  else JS.split "." f = [f].
Proof.
  induction f as [|c f IH]; [reflexivity|]. cbn.
  destruct (Ascii.eqb c ".") eqn:Hc.
  - apply Ascii.eqb_eq in Hc. subst c.
    destruct (Text.contains "." f).
    + destruct IH as (seg & segs & l & E & Hl & He).
      exists "", (seg :: segs), l. rewrite E. repeat split; [|assumption].
      destruct segs; [discriminate|exact Hl].
    + rewrite IH. exists "", [f], f. repeat split.
  - destruct (Text.contains "." f).
    + destruct IH as (seg & segs & l & E & Hl & He). rewrite E.
      exists (String c seg), segs, l. repeat split; assumption.
    + rewrite IH. reflexivity.
Qed.

Lemma Worker_ext_dotted f :
  Text.contains "." f = true -> Worker.ext f = Spec.ext f.
Proof.
  intros H. pose proof (split_dot f) as S. rewrite H in S.
  destruct S as (seg & segs & l & E & Hl & He).
  unfold Worker.ext, JS.pop. rewrite E, He.
  destruct segs; [discriminate|]. cbn [last] in *. rewrite Hl. reflexivity.
Qed.

Lemma Worker_ext_plain f :
  Text.contains "." f = false -> Worker.ext f = String "." f.
Proof.
  intros H. pose proof (split_dot f) as S. rewrite H in S.
  unfold Worker.ext, JS.pop. rewrite S. reflexivity.
Qed.

Lemma slice_drop_suffix f n :
  (0 < n)%nat ->
  JS.slice f 0 (Some (- Z.of_nat n)) = Text.take (String.length f - n) f.
Proof.
  intros Hn. unfold JS.slice, JS.clamp, Text.len.
  destruct (0 <? 0) eqn:E0; [discriminate|].
  destruct (- Z.of_nat n <? 0) eqn:E1; [|apply Z.ltb_ge in E1; lia].
  replace (Z.to_nat (Z.min 0 (Z.of_nat (String.length f)))) with 0%nat by lia.
  cbn [Text.drop]. f_equal. lia.
Qed.

Lemma Worker_name_dotted f :
  Text.contains "." f = true -> Worker.name f = Spec.base f.
Proof.
  intros H. unfold Worker.name, Text.len. rewrite Worker_ext_dotted by assumption.
  pose proof (split_dot f) as S. rewrite H in S.
  destruct S as (seg & segs & l & _ & _ & He).
  rewrite slice_drop_suffix by (rewrite He; cbn; lia). reflexivity.
Qed.

Lemma Worker_name_plain f :
  Text.contains "." f = false -> Worker.name f = "".
Proof.
  intros H. unfold Worker.name, Text.len. rewrite Worker_ext_plain by assumption.
  rewrite slice_drop_suffix by (cbn; lia).
  replace (String.length f - String.length (String "." f))%nat with 0%nat
    by (cbn; lia).
  destruct f; reflexivity.
Qed.

(** On a name with a dot the worker derives the specified key. *)
Lemma Worker_filename_dotted f now :
  Text.contains "." f = true ->
  Worker.filename f now = Spec.key f (Worker.hash now).
Proof.
  intros H. unfold Worker.filename, Spec.key.
  rewrite Worker_name_dotted, Worker_ext_dotted by assumption. reflexivity.
Qed.

(** On a name without a dot it does not: the whole name becomes the
    extension and the base is empty. *)
Lemma Worker_filename_plain f now :
  Text.contains "." f = false ->
  Worker.filename f now = "-" +:+ Worker.hash now +:+ "." +:+ f.
Proof.
  intros H. unfold Worker.filename.
  rewrite Worker_name_plain, Worker_ext_plain by assumption. reflexivity.
Qed.

Lemma Worker_filename_nonempty f now : Worker.filename f now <> "".
Proof.
  unfold Worker.filename. intros H. apply (f_equal String.length) in H.
  rewrite !length_app in H. cbn in H. lia.
Qed.

(** ** The server's [ext] and [name] *)

Lemma Ext_loop_app a b :
  Text.contains "/" a = false ->
  Go.Ext_loop (a +:+ b) (String.length a)
  = if Text.contains "." a then Spec.ext a +:+ b else "".
Proof.
  remember (String.length a) as n eqn:Hn. revert a b Hn.
  induction n as [|i IH]; intros a b Hn Hsep.
  - destruct a; [reflexivity|discriminate].
  - destruct (snoc_inv a i) as (a' & c & -> & Hlen); [congruence|].
    rewrite contains_app in Hsep. apply orb_false_elim in Hsep as [Ha' Hc].
    cbn in Hc. cbn [Go.Ext_loop]. rewrite app_assoc, app_cons, app_nil_l.
    rewrite <- Hlen at 1. rewrite get_app_length. unfold Go.IsPathSeparator.
    destruct (Ascii.eqb c "/") eqn:Hc'; [discriminate|].
    destruct (Ascii.eqb c ".") eqn:Hdot.
    + apply Ascii.eqb_eq in Hdot. subst c.
      rewrite <- Hlen, drop_app, contains_app. cbn. rewrite orb_true_r.
      rewrite (ext_app_dot a' "") by reflexivity. reflexivity.
    + rewrite (IH a' (String c b)) by (assumption || congruence).
      assert (Text.contains "." (String c "") = false) as Hplain
          by (cbn; rewrite Hdot; reflexivity).
      rewrite contains_app, Hplain, orb_false_r, (ext_app_plain a' _ Hplain).
      destruct (Text.contains "." a'); [|reflexivity].
      rewrite app_assoc. reflexivity.
Qed.

(** On a name without path separator [filepath.Ext] is the specified
    extension. *)
Lemma Server_ext_spec f :
  Text.contains "/" f = false -> Server.ext f = Spec.ext f.
Proof.
  intros H. unfold Server.ext, Go.Ext.
  rewrite <- (app_nil_r f) at 1. rewrite (Ext_loop_app f "" H).
  rewrite app_nil_r. destruct (Text.contains "." f) eqn:Hd; [reflexivity|].
  symmetry. apply ext_plain. assumption.
Qed.

Lemma TrimSuffix_ext f : Go.TrimSuffix f (Spec.ext f) = Spec.base f.
Proof.
  unfold Go.TrimSuffix, Go.HasSuffix.
  destruct (ext_suffix f) as [b E]. pose proof (ext_length f) as Hle.
  apply Nat.leb_le in Hle. rewrite Hle.
  assert (String.length f - String.length (Spec.ext f) = String.length b)%nat as Hb.
  { rewrite E at 1. rewrite length_app. lia. }
  assert (Text.drop (String.length b) f = Spec.ext f) as Hd.
  { rewrite E at 1. apply drop_app. }
  rewrite Hb, Hd, eqb_refl. cbn [andb]. unfold Spec.base. rewrite Hb.
  reflexivity.
Qed.

(** The server derives the specified key from the name and the hash. *)
Lemma Server_filename_spec f h :
  Text.contains "/" f = false -> Server.filename f h = Spec.key f h.
Proof.
  intros H. unfold Server.filename, Server.name, Spec.key.
  rewrite Server_ext_spec by assumption. rewrite TrimSuffix_ext. reflexivity.
Qed.

(** ** The time-derived suffix *)

Lemma hex_fixed_length k n : String.length (Text.hex_fixed k n) = k.
Proof.
  revert n. induction k as [|k IH]; intros n; [reflexivity|]. cbn.
  rewrite length_app, IH. cbn. lia.
Qed.

Lemma hex_fixed_split a b n :
  Text.hex_fixed (a + b) n
  = Text.hex_fixed a (n / 16 ^ Z.of_nat b) +:+ Text.hex_fixed b n.
Proof.
  revert n. induction b as [|b IH]; intros n.
  - rewrite Nat.add_0_r. cbn. rewrite Z.div_1_r, app_nil_r. reflexivity.
  - rewrite Nat.add_succ_r. cbn [Text.hex_fixed]. rewrite IH, app_assoc.
    rewrite Z.div_div by lia. rewrite Nat2Z.inj_succ, Z.pow_succ_r by lia.
    reflexivity.
Qed.

(** With enough fuel the digits of a number of at least [k + 1] digits
    end in its [k + 1] low-order digits. *)
Lemma hex_digits_low k fuel n :
  16 ^ Z.of_nat k <= n < 2 ^ Z.of_nat fuel ->
  exists p, Text.hex_digits fuel n = p +:+ Text.hex_fixed (S k) n.
Proof.
  revert fuel n. induction k as [|k IH]; intros fuel n [Hlo Hhi].
  - destruct fuel as [|fuel]; [cbn in *; lia|].
    cbn [Text.hex_digits Text.hex_fixed]. rewrite app_nil_l.
    destruct (n <? 16) eqn:E.
    + apply Z.ltb_lt in E. exists "". rewrite Z.mod_small by (cbn in Hlo; lia).
      reflexivity.
    + eexists. reflexivity.
  - assert (16 <= n) as H16.
    { rewrite Nat2Z.inj_succ, Z.pow_succ_r in Hlo by lia.
      pose proof (Z.pow_pos_nonneg 16 (Z.of_nat k)). lia. }
    destruct fuel as [|fuel]; [cbn in *; lia|]. cbn [Text.hex_digits].
    destruct (n <? 16) eqn:E; [apply Z.ltb_lt in E; lia|].
    destruct (IH fuel (n / 16)) as [p Hp].
    { rewrite Nat2Z.inj_succ, Z.pow_succ_r in Hlo, Hhi by lia. split.
      - apply Z.div_le_lower_bound; lia.
      - apply Z.div_lt_upper_bound; lia. }
    exists p. rewrite Hp. cbn [Text.hex_fixed]. rewrite app_assoc. reflexivity.
Qed.

(** A number of exactly [k + 1] digits. *)
Lemma hex_digits_exact k fuel n :
  16 ^ Z.of_nat k <= n < 16 ^ Z.of_nat (S k) ->
  n < 2 ^ Z.of_nat fuel ->
  Text.hex_digits fuel n = Text.hex_fixed (S k) n.
Proof.
  revert fuel n. induction k as [|k IH]; intros fuel n [Hlo Hhi] Hfuel.
  - destruct fuel as [|fuel]; [cbn in *; lia|].
    cbn [Text.hex_digits Text.hex_fixed]. rewrite app_nil_l.
    change (16 ^ Z.of_nat 1) with 16 in Hhi. apply Z.ltb_lt in Hhi as E.
    rewrite E, Z.mod_small by (cbn in Hlo; lia). reflexivity.
  - assert (16 <= n) as H16.
    { rewrite Nat2Z.inj_succ, Z.pow_succ_r in Hlo by lia.
      pose proof (Z.pow_pos_nonneg 16 (Z.of_nat k)). lia. }
    destruct fuel as [|fuel]; [cbn in *; lia|]. cbn [Text.hex_digits].
    destruct (n <? 16) eqn:E; [apply Z.ltb_lt in E; lia|].
    rewrite (IH fuel (n / 16)); [reflexivity| |].
    + rewrite (Nat2Z.inj_succ (S k)), Z.pow_succ_r in Hhi by lia.
      rewrite (Nat2Z.inj_succ k), Z.pow_succ_r in Hlo by lia. split.
      * apply Z.div_le_lower_bound; lia.
      * apply Z.div_lt_upper_bound; lia.
    + rewrite Nat2Z.inj_succ, Z.pow_succ_r in Hfuel by lia.
      apply Z.div_lt_upper_bound; lia.
Qed.

Lemma hex_nonneg_fuel n : 0 < n -> n < 2 ^ Z.of_nat (S (Z.to_nat (Z.log2 n))).
Proof.
  intros H. rewrite Nat2Z.inj_succ, Z2Nat.id by apply Z.log2_nonneg.
  apply Z.log2_spec. assumption.
Qed.

(** From 1970-01-04 on, the worker's [hash] is the eight low-order
    hexadecimal digits of the clock. *)
Lemma Worker_hash_low now :
  16 ^ 7 <= now -> Worker.hash now = Text.hex_fixed 8 now.
Proof.
  intros H. unfold Worker.hash, JS.toString16, Text.hex.
  destruct (now <? 0) eqn:E; [apply Z.ltb_lt in E; lia|].
  destruct (hex_digits_low 7 (S (Z.to_nat (Z.log2 now))) now) as [p Hp].
  { split; [exact H|]. apply hex_nonneg_fuel. lia. }
  unfold Text.hex_nonneg. rewrite Hp.
  unfold JS.slice, JS.clamp, Text.len. rewrite length_app, hex_fixed_length.
  change (-8 <? 0) with true. cbn iota.
  replace (Z.to_nat (Z.max (Z.of_nat (String.length p + 8) + -8) 0))
    with (String.length p) by lia.
  rewrite drop_app. apply take_all. rewrite hex_fixed_length. lia.
Qed.

(** For a clock of sixteen hexadecimal digits (nanoseconds from 2006 to
    the end of the [int64] range) the server's [hash] is the eight
    low-order digits too. *)
Lemma Server_hash_low now :
  16 ^ 15 <= now < 16 ^ 16 ->
  Server.hash now = Returned (Text.hex_fixed 8 now).
Proof.
  intros H. unfold Server.hash, Go.Sprintf_x, Text.hex.
  destruct (now <? 0) eqn:E; [apply Z.ltb_lt in E; lia|].
  unfold Text.hex_nonneg.
  rewrite (hex_digits_exact 15) by (try apply hex_nonneg_fuel; lia).
  unfold Go.slice_from. rewrite hex_fixed_length. cbn [Nat.leb].
  rewrite (hex_fixed_split 8 8).
  rewrite <- (hex_fixed_length 8 (now / 16 ^ Z.of_nat 8)) at 1.
  rewrite drop_app. reflexivity.
Qed.

Lemma hex_digit_inj x y :
  0 <= x < 16 -> 0 <= y < 16 -> Text.hex_digit x = Text.hex_digit y -> x = y.
Proof.
  intros Hx Hy.
  assert (x = 0 \/ x = 1 \/ x = 2 \/ x = 3 \/ x = 4 \/ x = 5 \/ x = 6 \/ x = 7 \/
          x = 8 \/ x = 9 \/ x = 10 \/ x = 11 \/ x = 12 \/ x = 13 \/ x = 14 \/
          x = 15) as Cx by lia.
  assert (y = 0 \/ y = 1 \/ y = 2 \/ y = 3 \/ y = 4 \/ y = 5 \/ y = 6 \/ y = 7 \/
          y = 8 \/ y = 9 \/ y = 10 \/ y = 11 \/ y = 12 \/ y = 13 \/ y = 14 \/
          y = 15) as Cy by lia.
  repeat destruct Cx as [->|Cx]; try subst x;
    repeat destruct Cy as [->|Cy]; try subst y;
    first [reflexivity | discriminate].
Qed.

Lemma mod_pow_succ n k :
  n mod 16 ^ Z.of_nat (S k) = n mod 16 + 16 * ((n / 16) mod 16 ^ Z.of_nat k).
Proof.
  rewrite Nat2Z.inj_succ, Z.pow_succ_r by lia.
  apply Z.rem_mul_r; [lia|]. apply Z.pow_pos_nonneg; lia.
Qed.

(** Two numbers have the same [k] fixed digits exactly when they agree
    modulo [16^k]. *)
Lemma hex_fixed_eq_iff k a b :
  Text.hex_fixed k a = Text.hex_fixed k b
  <-> a mod 16 ^ Z.of_nat k = b mod 16 ^ Z.of_nat k.
Proof.
  revert a b. induction k as [|k IH]; intros a b.
  - cbn. rewrite !Z.mod_1_r. tauto.
  - cbn [Text.hex_fixed]. rewrite !mod_pow_succ.
    pose proof (Z.mod_pos_bound a 16) as Ha. pose proof (Z.mod_pos_bound b 16) as Hb.
    split.
    + intros H. apply snoc_inj in H as [Hhigh Hlow].
      apply IH in Hhigh. apply hex_digit_inj in Hlow; lia.
    + intros H.
      assert (a mod 16 = b mod 16 /\
              (a / 16) mod 16 ^ Z.of_nat k = (b / 16) mod 16 ^ Z.of_nat k)
        as [Hlow Hhigh] by lia.
      apply IH in Hhigh. rewrite Hhigh, Hlow. reflexivity.
Qed.

(** The worker's truncated digits agree exactly when the instants agree
    modulo [16^8] milliseconds. *)
Lemma Worker_hash_eq_iff t1 t2 :
  16 ^ 7 <= t1 -> 16 ^ 7 <= t2 ->
  Worker.hash t1 = Worker.hash t2 <-> t1 mod 16 ^ 8 = t2 mod 16 ^ 8.
Proof.
  intros H1 H2. rewrite !Worker_hash_low by assumption.
  apply (hex_fixed_eq_iff 8).
Qed.

(** ** The store *)

Lemma call_objects st : Store.objects (snd (Store.call st)) = Store.objects st.
Proof. unfold Store.call. destruct (Store.script st); reflexivity. Qed.

Lemma call_etag_of st : Store.etag_of (snd (Store.call st)) = Store.etag_of st.
Proof. unfold Store.call. destruct (Store.script st); reflexivity. Qed.

Lemma put_ok key bytes ct st st' :
  Store.put key bytes ct st = (Ok tt, st') ->
  Store.objects st'
  = <[key := Store.mkObject bytes (Some ct) (Store.etag_of st bytes)]>
      (Store.objects st) /\
  Store.etag_of st' = Store.etag_of st.
Proof.
  unfold Store.put. pose proof (call_objects st) as Ho.
  pose proof (call_etag_of st) as He.
  destruct (Store.call st) as [[] s1]; [discriminate|]. cbn in Ho, He.
  intros H. inversion H; subst. cbn. rewrite Ho, He. split; reflexivity.
Qed.

Lemma get_ok key st :
  fst (Store.call st) = false ->
  Store.get key st = (Ok (Store.objects st !! key), snd (Store.call st)).
Proof.
  intros H. unfold Store.get. pose proof (call_objects st) as Ho.
  destruct (Store.call st) as [failing s1]. cbn in *. subst failing.
  rewrite Ho. reflexivity.
Qed.

(** ** Headers *)

Lemma json_headers_cors request :
  Headers.get (Worker.json_headers request) "Access-Control-Allow-Origin"
  = Some (Worker.getAllowedOrigin request).
Proof. unfold Worker.json_headers. header_lookup. Qed.

Lemma json_headers_type request :
  Headers.get (Worker.json_headers request) "Content-Type"
  = Some "application/json".
Proof. unfold Worker.json_headers. header_lookup. Qed.

Lemma json_response_headers fields status request :
  Response.headers (Worker.new_Response (Json fields) status
                      (Worker.json_headers request))
  = Worker.json_headers request.
Proof.
  unfold Worker.new_Response, Headers.has. cbn [Response.headers].
  rewrite json_headers_type.
  rewrite bool_decide_eq_true_2 by (eexists; reflexivity). reflexivity.
Qed.

(** [getAllowedOrigin] implements the allow-list rule. *)
Lemma getAllowedOrigin_rule request :
  Some (Worker.getAllowedOrigin request)
  = Spec.allowed_origin Worker.ALLOWED_ORIGINS
      (Headers.get (Request.headers request) "Origin").
Proof.
  unfold Worker.getAllowedOrigin, Spec.allowed_origin, JS.includes.
  destruct (Headers.get _ _) as [o|]; [|reflexivity].
  destruct (bool_decide (o ∈ Worker.ALLOWED_ORIGINS)) eqn:Hin.
  - rewrite andb_true_r. unfold JS.truthy.
    destruct (Text.eqb o "") eqn:He; [|reflexivity].
    apply eqb_true in He. subst o. vm_compute in Hin. discriminate.
  - rewrite andb_false_r. reflexivity.
Qed.

(** ** The upload handlers, case by case *)

Lemma handleUpload_unparsed request now st :
  Request.formData request = None ->
  Worker.handleUpload request now st
  = (Returned (upload_error request 500 "Failed to upload file"), st).
Proof.
  intros H. unfold Worker.handleUpload, try_catch, mbind, M_bind.
  rewrite H. reflexivity.
Qed.

Lemma handleUpload_no_file request now st :
  Spec.no_file request ->
  Worker.handleUpload request now st
  = (Returned (upload_error request 400 "File is required"), st).
Proof.
  intros (fd & Hfd & Hno).
  unfold Worker.handleUpload, try_catch, mbind, M_bind. rewrite Hfd.
  unfold mret, M_ret.
  destruct (FormData_get fd "file") as [[s|f]|] eqn:E; try reflexivity.
  exfalso. apply (Hno f). reflexivity.
Qed.

Lemma handleUpload_not_image request fd file now st :
  Request.formData request = Some fd ->
  FormData_get fd "file" = Some (FieldFile file) ->
  JS.startsWith (File.type file) "image/" = false ->
  Worker.handleUpload request now st
  = (Returned (upload_error request 400 "Only image files are allowed"), st).
Proof.
  intros Hfd Hfile Hty.
  unfold Worker.handleUpload, try_catch, mbind, M_bind. rewrite Hfd.
  unfold mret, M_ret. rewrite Hfile, Hty. reflexivity.
Qed.

Lemma handleUpload_valid request file now st :
  Spec.valid_image_upload request file ->
  Worker.handleUpload request now st
  = match Store.put (Worker.filename (File.name file) now)
            (File.stream file) (File.type file) st with
    | (Ok _, st') =>
        (Returned (upload_ok request (Worker.filename (File.name file) now)), st')
    | (Err _, st') =>
        (Returned (upload_error request 500 "Failed to upload file"), st')
    end.
Proof.
  intros [(fd & Hfd & Hfile) Hty].
  unfold Worker.handleUpload, try_catch, mbind, M_bind. rewrite Hfd.
  unfold mret, M_ret. rewrite Hfile, Hty. cbn [negb]. unfold await.
  destruct (Store.put _ _ _ st) as [[[]|e] st']; reflexivity.
Qed.

(** The upload handler always answers: nothing it calls can make it
    raise. *)
Lemma handleUpload_returns request now st :
  exists response st', Worker.handleUpload request now st = (Returned response, st').
Proof.
  destruct (Request.formData request) as [fd|] eqn:Hfd.
  - destruct (FormData_get fd "file") as [[s|file]|] eqn:Hfile.
    + eexists _, _. apply handleUpload_no_file. exists fd. split; [done|].
      intros f. rewrite Hfile. discriminate.
    + destruct (JS.startsWith (File.type file) "image/") eqn:Hty.
      * rewrite (handleUpload_valid request file) by (split; eauto).
        destruct (Store.put _ _ _ st) as [[[]|e] st']; eauto.
      * eexists _, _. eapply handleUpload_not_image; eauto.
    + eexists _, _. apply handleUpload_no_file. exists fd. split; [done|].
      intros f. rewrite Hfile. discriminate.
  - eexists _, _. apply handleUpload_unparsed. assumption.
Qed.

(** Every answer of the upload handler is one of the two JSON shapes. *)
Lemma handleUpload_shape request now st :
  exists st',
    (exists key, Worker.handleUpload request now st
                 = (Returned (upload_ok request key), st')) \/
    (exists code msg, Worker.handleUpload request now st
                      = (Returned (upload_error request code msg), st')).
Proof.
  destruct (Request.formData request) as [fd|] eqn:Hfd.
  - destruct (FormData_get fd "file") as [[s|file]|] eqn:Hfile.
    + exists st. right. eexists _, _. apply handleUpload_no_file.
      exists fd. split; [done|]. intros f. rewrite Hfile. discriminate.
    + destruct (JS.startsWith (File.type file) "image/") eqn:Hty.
      * rewrite (handleUpload_valid request file) by (split; eauto).
        destruct (Store.put _ _ _ st) as [[[]|e] st']; exists st'; eauto.
      * exists st. right. eexists _, _. eapply handleUpload_not_image; eauto.
    + exists st. right. eexists _, _. apply handleUpload_no_file.
      exists fd. split; [done|]. intros f. rewrite Hfile. discriminate.
  - exists st. right. eexists _, _. apply handleUpload_unparsed. assumption.
Qed.

(** A failing put is answered 500 [{error: "Failed to upload file"}];
    the bucket keeps its objects and exactly one store call was made
    (nothing is retried). *)
Lemma handleUpload_store_failure request file now objs rest etag_of :
  Spec.valid_image_upload request file ->
  Worker.handleUpload request now (Store.mk objs (true :: rest) etag_of)
  = (Returned (upload_error request 500 "Failed to upload file"),
     Store.mk objs rest etag_of).
Proof.
  intros Hvalid. rewrite (handleUpload_valid request file) by assumption.
  reflexivity.
Qed.

(** The server's file checks. *)
Lemma Server_upload_no_file svc c now st e :
  Fiber.FormFile c "file" = Err e ->
  Server.upload svc c now st
  = (Returned (Fiber.JSON 400 [("error", "File is required")]), st).
Proof. intros H. unfold Server.upload. rewrite H. reflexivity. Qed.

Lemma Server_upload_not_image svc c fh now st :
  Fiber.FormFile c "file" = Ok fh ->
  Go.HasPrefix (Fiber.Header_Get fh "Content-Type") "image/" = false ->
  Server.upload svc c now st
  = (Returned (Fiber.JSON 400 [("error", "Only image files are allowed")]), st).
Proof. intros H Hty. unfold Server.upload. rewrite H, Hty. reflexivity. Qed.

(** The earlier [/upload] route stores the payload under the uploaded
    file's own name and answers with a message only. *)
Lemma ServerLegacy_upload_answer svc c fh buf st st' :
  Fiber.FormFile c "file" = Ok fh ->
  Fiber.data fh = Fiber.Readable buf ->
  S3.UploadFileToR2 svc (Fiber.Filename fh) buf
    (Fiber.Header_Get fh "Content-Type") st = (None, st') ->
  ServerLegacy.upload svc c st
  = (Fiber.JSON 200 [("message", "File uploaded successfully")], st').
Proof.
  intros Hfile Hdata Hput. unfold ServerLegacy.upload.
  rewrite Hfile, Hdata, Hput. reflexivity.
Qed.

(** ** The retrieval handler, case by case *)

Lemma handleGet_absent request key st st' :
  Store.get key st = (Ok None, st') ->
  Worker.handleGet request key st
  = (Returned
       (Worker.new_Response (PlainText "Object Not Found") (Some 404)
          (Headers.of_list
             [("Access-Control-Allow-Origin", Worker.getAllowedOrigin request)])),
     st').
Proof.
  intros H. unfold Worker.handleGet.
  erewrite bind_returned by (unfold await; rewrite H; reflexivity).
  reflexivity.
Qed.

Lemma handleGet_found request key st st' o :
  Store.get key st = (Ok (Some o), st') ->
  exists response,
    Worker.handleGet request key st = (Returned response, st') /\
    Response.status response = 200 /\
    Response.body response = Bytes (Store.body o) /\
    Headers.get (Response.headers response) "Content-Type" = Store.contentType o /\
    Headers.get (Response.headers response) "Access-Control-Allow-Origin"
    = Some (Worker.getAllowedOrigin request).
Proof.
  intros H. unfold Worker.handleGet.
  erewrite bind_returned by (unfold await; rewrite H; reflexivity).
  eexists. split; [reflexivity|]. split; [reflexivity|]. split; [reflexivity|].
  cbn [Worker.new_Response Response.headers andb].
  unfold Headers.get, Headers.set, Worker.writeHttpMetadata.
  split.
  - rewrite !lookup_insert_ne by (vm_compute; discriminate).
    destruct (Store.contentType o) as [ct|].
    + unfold Headers.set. apply lookup_insert_eq.
    + apply lookup_empty.
  - apply lookup_insert_eq.
Qed.

Lemma handleGet_failure request key st st' e :
  Store.get key st = (Err e, st') ->
  Worker.handleGet request key st = (Thrown e, st').
Proof.
  intros H. unfold Worker.handleGet.
  erewrite bind_thrown by (unfold await; rewrite H; reflexivity).
  reflexivity.
Qed.

(** On the worker an absent key is answered 404 with a textual error
    body, hence without object bytes. *)
Lemma handleGet_absent_404 request key st :
  Store.objects st !! key = None ->
  fst (Store.call st) = false ->
  exists response,
    Worker.handleGet request key st = (Returned response, snd (Store.call st)) /\
    Response.status response = 404 /\
    Response.body response = PlainText "Object Not Found".
Proof.
  intros Habs Hcall.
  assert (Store.get key st = (Ok None, snd (Store.call st))) as Hget.
  { unfold Store.get. destruct (Store.call st) as [failing s'] eqn:E.
    cbn in Hcall. subst failing. cbn. f_equal. f_equal. rewrite <- Habs.
    unfold Store.call in E. destruct (Store.script st); inversion E; reflexivity. }
  rewrite (handleGet_absent request key st _ Hget).
  eexists. repeat split.
Qed.

(** ** The origin header *)

Lemma handleUpload_cors request now st response st' :
  Worker.handleUpload request now st = (Returned response, st') ->
  Headers.get (Response.headers response) "Access-Control-Allow-Origin"
  = Some (Worker.getAllowedOrigin request).
Proof.
  intros H.
  destruct (handleUpload_shape request now st)
    as (st1 & [(key & E) | (code & msg & E)]);
    rewrite E in H; inversion H; subst;
    unfold upload_ok, upload_error;
    rewrite json_response_headers; apply json_headers_cors.
Qed.

Lemma handleGet_cors request key st response st' :
  Worker.handleGet request key st = (Returned response, st') ->
  Headers.get (Response.headers response) "Access-Control-Allow-Origin"
  = Some (Worker.getAllowedOrigin request).
Proof.
  intros H. destruct (Store.get key st) as [[[o|]|e] st1] eqn:Hget.
  - destruct (handleGet_found request key st st1 o Hget) as (r & E & _ & _ & _ & Hc).
    rewrite E in H. inversion H; subst. exact Hc.
  - rewrite (handleGet_absent request key st st1 Hget) in H.
    inversion H; subst. header_lookup.
  - rewrite (handleGet_failure request key st st1 e Hget) in H. discriminate.
Qed.

(** Apart from a POST outside [/img/upload], every answer of the worker
    carries the origin chosen by [getAllowedOrigin]. *)
Lemma fetch_cors request now st response st' :
  Worker.fetch request now st = (Returned response, st') ->
  (Request.method request = "POST" /\ Request.pathname request <> "/img/upload") \/
  Headers.get (Response.headers response) "Access-Control-Allow-Origin"
  = Some (Worker.getAllowedOrigin request).
Proof.
  unfold Worker.fetch.
  destruct (Text.eqb (Request.method request) "OPTIONS") eqn:Hopt.
  { intros H. right. inversion H; subst. header_lookup. }
  destruct (Text.eqb (Request.method request) "POST") eqn:Hpost.
  { destruct (Text.eqb (Request.pathname request) "/img/upload") eqn:Hpath.
    - intros H. right. eapply handleUpload_cors; eauto.
    - intros _. left. apply eqb_true in Hpost. apply eqb_false in Hpath. done. }
  destruct (Text.eqb (Request.method request) "GET") eqn:Hget.
  { intros H. right. eapply handleGet_cors; eauto. }
  intros H. right. inversion H; subst. header_lookup.
Qed.

(** ** The environment of the server *)

Lemma Getenv_empty env key : Server.Getenv env key = "" <-> Spec.missing env key.
Proof.
  unfold Server.Getenv, Spec.missing. destruct (env !! key) as [v|]; cbn.
  - split; [intros ->; right; reflexivity|]. intros [H|H]; congruence.
  - split; [left|]; reflexivity.
Qed.

(** The test of [NewR2Service] is true exactly when some credential is
    missing. *)
Lemma credentials_test env :
  Text.eqb (Server.Getenv env "CLOUDFLARE_ACCOUNT_ID") "" ||
  Text.eqb (Server.Getenv env "CLOUDFLARE_ACCESS_KEY_ID") "" ||
  Text.eqb (Server.Getenv env "CLOUDFLARE_ACCESS_KEY_SECRET") "" ||
  Text.eqb (Server.Getenv env "CLOUDFLARE_BUCKET_NAME") "" = true
  <-> Spec.credential_missing env.
Proof.
  unfold Spec.credential_missing, Server.credentials.
  rewrite !orb_true_iff, !eqb_true, !Getenv_empty. split.
  - intros [[[H|H]|H]|H]; eexists; (split; [|exact H]); set_solver.
  - intros (key & Hin & H).
    repeat (apply elem_of_cons in Hin as [->|Hin]; [tauto|]).
    apply elem_of_nil in Hin. contradiction.
Qed.

(** ** Key derivation *)

(** C1. Evaluated on an image named [README], uploaded to an empty
    bucket at any instant, [handleUpload] stores the payload under, and
    answers with, the key ["-" + hash + ".README"]: the whole name has
    become the extension and the base is empty, whereas the specified
    key is ["README-" + hash]. *)
Theorem handleUpload_name_without_dot (now : Z) :
  let file := File.mk "README" "image/png" [Byte.x89; Byte.x50] in
  let request :=
    Request.mk "POST" "/img/upload" Headers.empty
      (Some [("file", FieldFile file)]) in
  let st := Store.mk ∅ [] (fun _ => "") in
  let key := "-" +:+ Worker.hash now +:+ ".README" in
  exists response st',
    Worker.handleUpload request now st = (Returned response, st') /\
    Response.status response = 200 /\
    Json_field (Response.body response) "filename" = Some key /\
    Store.objects st' !! key = Some (Spec.stored file st) /\
    Spec.key "README" (Worker.hash now) = "README-" +:+ Worker.hash now /\
    key <> Spec.key "README" (Worker.hash now).
Proof.
  cbn zeta.
  set (file := File.mk "README" "image/png" [Byte.x89; Byte.x50]).
  set (st := Store.mk ∅ [] (fun _ => "")).
  assert (Worker.filename "README" now = "-" +:+ Worker.hash now +:+ ".README")
    as Hkey by (apply Worker_filename_plain; reflexivity).
  assert (Spec.key "README" (Worker.hash now) = "README-" +:+ Worker.hash now)
    as Hspec by (rewrite Spec_key_plain by reflexivity; reflexivity).
  eexists _, _. split.
  { rewrite (handleUpload_valid _ file).
    - unfold file. cbn [File.name File.stream File.type]. rewrite Hkey.
      reflexivity.
    - split; [|reflexivity]. eexists. split; reflexivity. }
  split; [reflexivity|]. split; [reflexivity|]. split.
  { cbn. apply lookup_insert_eq. }
  split; [exact Hspec|]. rewrite Hspec. discriminate.
Qed.

(** ** Upload, then retrieval *)

(** C2, as amended. A valid image upload whose put on the store succeeds
    is answered with a non-empty [filename]; a GET for that key made
    next, whose call to the store does not fail, is answered 200 with
    the uploaded bytes and the declared content type as
    [Content-Type]. *)
Theorem upload_then_get (request request' : Request.t) (file : File.t)
    (now : Z) (st st' : Store.t) :
  Spec.valid_image_upload request file ->
  Store.put (Worker.filename (File.name file) now) (File.stream file)
    (File.type file) st = (Ok tt, st') ->
  fst (Store.call st') = false ->
  exists response key response',
    Worker.handleUpload request now st = (Returned response, st') /\
    Json_field (Response.body response) "filename" = Some key /\
    key <> "" /\
    Worker.handleGet request' key st' = (Returned response', snd (Store.call st')) /\
    Response.status response' = 200 /\
    Response.body response' = Bytes (File.stream file) /\
    Headers.get (Response.headers response') "Content-Type"
    = Some (File.type file).
Proof.
  intros Hvalid Hput Hcall.
  destruct (put_ok _ _ _ _ _ Hput) as [Ho _].
  pose proof (get_ok (Worker.filename (File.name file) now) st' Hcall) as Hget.
  rewrite Ho, lookup_insert_eq in Hget.
  destruct (handleGet_found request' _ _ _ _ Hget) as (r' & E & Hs & Hb & Hct & _).
  exists (upload_ok request (Worker.filename (File.name file) now)),
    (Worker.filename (File.name file) now), r'.
  rewrite (handleUpload_valid request file now st Hvalid), Hput.
  repeat split; try assumption. apply Worker_filename_nonempty.
Qed.

Lemma upload_then_get_witness :
  let cat := File.mk "cat.jpg" "image/jpeg" [Byte.xff; Byte.xd8] in
  let request :=
    Request.mk "POST" "/img/upload" Headers.empty
      (Some [("file", FieldFile cat)]) in
  let request' := Request.mk "GET" "/img/cat-f0ee44c0.jpg" Headers.empty None in
  let st := Store.mk ∅ [] (fun _ => "etag") in
  let st' := snd (Store.put "cat-f0ee44c0.jpg" [Byte.xff; Byte.xd8] "image/jpeg" st) in
  exists response key response',
    Worker.handleUpload request 1730619000000 st = (Returned response, st') /\
    Json_field (Response.body response) "filename" = Some key /\
    key <> "" /\
    Worker.handleGet request' key st' = (Returned response', st') /\
    Response.status response' = 200 /\
    Response.body response' = Bytes [Byte.xff; Byte.xd8] /\
    Headers.get (Response.headers response') "Content-Type" = Some "image/jpeg".
Proof.
  intros cat request request' st st'.
  apply (upload_then_get request request' cat 1730619000000 st st').
  - split; [|reflexivity]. eexists. split; reflexivity.
  - reflexivity.
  - reflexivity.
Defined.

(** C2, as stated, fails: this image upload is valid, but the put fails,
    and the answer is 500 without any [filename]. *)
Lemma upload_without_filename :
  let cat := File.mk "cat.jpg" "image/jpeg" [Byte.xff; Byte.xd8] in
  let request :=
    Request.mk "POST" "/img/upload" Headers.empty
      (Some [("file", FieldFile cat)]) in
  let st := Store.mk ∅ [true] (fun _ => "etag") in
  Spec.valid_image_upload request cat /\
  exists response st',
    Worker.handleUpload request 1730619000000 st = (Returned response, st') /\
    Response.status response = 500 /\
    Response.body response = Json [("error", "Failed to upload file")] /\
    Json_field (Response.body response) "filename" = None /\
    Store.objects st' = ∅.
Proof.
  cbn zeta. split.
  - split; [|reflexivity]. eexists. split; reflexivity.
  - eexists _, _. split; [reflexivity|]. repeat split.
Qed.

(** ** Rejected uploads *)

(** C3. An upload whose form has no file under [file] is answered 400
    [{error: "File is required"}]; one whose file's declared content
    type does not start with [image/] is answered 400
    [{error: "Only image files are allowed"}]; in both cases the store is
    unchanged and no put was made.  This holds of the worker's
    [handleUpload] and of the server's [/upload] route. *)
Theorem invalid_upload_rejected :
  (forall request now st,
      Spec.no_file request ->
      rejected (Worker.handleUpload request now st) st 400 "File is required") /\
  (forall request fd file now st,
      Request.formData request = Some fd ->
      FormData_get fd "file" = Some (FieldFile file) ->
      JS.startsWith (File.type file) "image/" = false ->
      rejected (Worker.handleUpload request now st) st 400
        "Only image files are allowed") /\
  (forall svc c now st e,
      Fiber.FormFile c "file" = Err e ->
      rejected (Server.upload svc c now st) st 400 "File is required") /\
  (forall svc c fh now st,
      Fiber.FormFile c "file" = Ok fh ->
      Go.HasPrefix (Fiber.Header_Get fh "Content-Type") "image/" = false ->
      rejected (Server.upload svc c now st) st 400
        "Only image files are allowed").
Proof.
  repeat split.
  - intros request now st H. rewrite handleUpload_no_file by assumption.
    eexists. repeat split.
  - intros request fd file now st Hfd Hfile Hty.
    rewrite (handleUpload_not_image request fd file) by assumption.
    eexists. repeat split.
  - intros svc c now st e H. rewrite (Server_upload_no_file svc c now st e H).
    eexists. repeat split.
  - intros svc c fh now st H Hty.
    rewrite (Server_upload_not_image svc c fh now st H Hty).
    eexists. repeat split.
Qed.

Lemma invalid_upload_rejected_witness :
  let st := Store.mk ∅ [] (fun _ => "") in
  let pdf := File.mk "notes.pdf" "application/pdf" [] in
  let fh := Fiber.mkFileHeader "notes.pdf"
              (Headers.of_list [("Content-Type", "application/pdf")])
              (Fiber.Readable []) in
  let svc := S3.mkS3Service "acct" "id" "secret" "images" in
  rejected (Worker.handleUpload
              (Request.mk "POST" "/img/upload" Headers.empty (Some [])) 0 st)
    st 400 "File is required" /\
  rejected (Worker.handleUpload
              (Request.mk "POST" "/img/upload" Headers.empty
                 (Some [("file", FieldFile pdf)])) 0 st)
    st 400 "Only image files are allowed" /\
  rejected (Server.upload svc (Fiber.mkCtx None) 0 st) st 400 "File is required" /\
  rejected (Server.upload svc (Fiber.mkCtx (Some [("file", fh)])) 0 st) st 400
    "Only image files are allowed".
Proof.
  intros st pdf fh svc.
  destruct invalid_upload_rejected as (W1 & W2 & S1 & S2).
  split; [|split; [|split]].
  - apply W1. exists []. split; [reflexivity|]. intros f. discriminate.
  - apply (W2 _ [("file", FieldFile pdf)] pdf); reflexivity.
  - apply (S1 svc (Fiber.mkCtx None) 0 st
             "request has no multipart/form-data Content-Type"). reflexivity.
  - apply (S2 svc _ fh); reflexivity.
Defined.

(** ** Retrieval of an absent key *)

(** C4. Evaluated on a bucket without the requested key, both Go
    retrieval routes answer 500 with [{error: "Failed to retrieve file"}]
    where 404 is specified; whatever the bucket holds, they never answer
    404. *)
Theorem Server_get_absent_is_500 (svc : S3.S3Service) (key : string)
    (etag_of : list Byte.byte -> string) :
  let st := Store.mk ∅ [] etag_of in
  Server.get svc key st
  = (Fiber.JSON 500 [("error", "Failed to retrieve file")], st) /\
  ServerLegacy.get svc key st
  = (Fiber.JSON 500 [("error", "Failed to retrieve file")], st) /\
  (forall st', Response.status (fst (Server.get svc key st')) <> 404) /\
  (forall st', Response.status (fst (ServerLegacy.get svc key st')) <> 404).
Proof.
  cbn zeta. split; [|split; [|split]].
  - unfold Server.get, S3.GetFileFromR2, Store.get. cbn.
    rewrite lookup_empty. reflexivity.
  - unfold ServerLegacy.get, S3.GetFileFromR2, Store.get. cbn.
    rewrite lookup_empty. reflexivity.
  - intros st'. unfold Server.get.
    destruct (S3.GetFileFromR2 svc key st') as [[[file ct]|e] st''];
      intros H; vm_compute in H; discriminate.
  - intros st'. unfold ServerLegacy.get.
    destruct (S3.GetFileFromR2 svc key st') as [[[file ct]|e] st''];
      intros H; vm_compute in H; discriminate.
Qed.

(** ** Uploads of one name *)

(** C5. With the clock as an input: for one file name, instants whose
    truncated digits ([hash]) differ give different keys; instants whose
    truncated digits agree give the same key, and when both puts go
    through, both uploads are answered 200 with that key and the bucket
    ends as if the second upload alone had happened: the first object is
    replaced without any error or trace. *)
Theorem same_name_uploads :
  (forall f t1 t2,
      Worker.hash t1 <> Worker.hash t2 ->
      Worker.filename f t1 <> Worker.filename f t2) /\
  (forall request1 request2 file1 file2 t1 t2 st st1 st2,
      Spec.valid_image_upload request1 file1 ->
      Spec.valid_image_upload request2 file2 ->
      File.name file1 = File.name file2 ->
      Worker.hash t1 = Worker.hash t2 ->
      Store.put (Worker.filename (File.name file1) t1) (File.stream file1)
        (File.type file1) st = (Ok tt, st1) ->
      Store.put (Worker.filename (File.name file2) t2) (File.stream file2)
        (File.type file2) st1 = (Ok tt, st2) ->
      let key := Worker.filename (File.name file1) t1 in
      Worker.filename (File.name file2) t2 = key /\
      Worker.handleUpload request1 t1 st = (Returned (upload_ok request1 key), st1) /\
      Worker.handleUpload request2 t2 st1 = (Returned (upload_ok request2 key), st2) /\
      Store.objects st1 !! key = Some (Spec.stored file1 st) /\
      Store.objects st2 = <[key := Spec.stored file2 st]> (Store.objects st)).
Proof.
  split.
  - intros f t1 t2 Hne H. apply Hne. unfold Worker.filename in H.
    apply String.app_inj, String.app_inj in H. eapply app_inj_r. exact H.
  - intros request1 request2 file1 file2 t1 t2 st st1 st2 Hv1 Hv2 Hname Hhash
      Hput1 Hput2 key.
    assert (Worker.filename (File.name file2) t2 = key) as Hkey.
    { unfold key, Worker.filename. rewrite Hname, Hhash. reflexivity. }
    split; [exact Hkey|].
    rewrite (handleUpload_valid request1 file1 t1 st Hv1), Hput1.
    rewrite (handleUpload_valid request2 file2 t2 st1 Hv2), Hput2.
    rewrite Hkey in *. fold key in Hput1.
    destruct (put_ok _ _ _ _ _ Hput1) as [Ho1 He1].
    destruct (put_ok _ _ _ _ _ Hput2) as [Ho2 He2].
    repeat split.
    + rewrite Ho1. apply lookup_insert_eq.
    + rewrite Ho2, Ho1, He1. apply insert_insert_eq.
Qed.

Lemma same_name_uploads_witness :
  let first := File.mk "photo.png" "image/png" [Byte.x01] in
  let second := File.mk "photo.png" "image/png" [Byte.x02] in
  let upload file :=
    Request.mk "POST" "/img/upload" Headers.empty
      (Some [("file", FieldFile file)]) in
  let st := Store.mk ∅ [] (fun _ => "") in
  let st1 := snd (Store.put "photo-f0ee44c0.png" [Byte.x01] "image/png" st) in
  let st2 := snd (Store.put "photo-f0ee44c0.png" [Byte.x02] "image/png" st1) in
  Worker.filename "photo.png" 1730619000000
  <> Worker.filename "photo.png" 1730619000001 /\
  Worker.filename "photo.png" 1734913967296 = "photo-f0ee44c0.png" /\
  Worker.handleUpload (upload second) 1734913967296 st1
  = (Returned (upload_ok (upload second) "photo-f0ee44c0.png"), st2) /\
  Store.objects st2 = <[ "photo-f0ee44c0.png" := Spec.stored second st ]> ∅.
Proof.
  intros first second upload st st1 st2.
  destruct same_name_uploads as [Hdiffer Hsame]. split.
  - apply Hdiffer. vm_compute. discriminate.
  - destruct (Hsame (upload first) (upload second) first second
                1730619000000 1734913967296 st st1 st2)
      as (Hkey & _ & Hsecond & _ & Hobjects); try reflexivity.
    + split; [|reflexivity]. eexists. split; reflexivity.
    + split; [|reflexivity]. eexists. split; reflexivity.
    + split; [exact Hkey|]. split; [exact Hsecond|exact Hobjects].
Defined.

(** ** The origin header on every answer *)

(** C6. Evaluated on a POST to a path other than [/img/upload], from an
    allow-listed origin, [fetch] answers 404 with no
    [Access-Control-Allow-Origin] header at all. *)
Theorem fetch_post_elsewhere_lacks_origin_header (now : Z) (st : Store.t) :
  let request :=
    Request.mk "POST" "/img/other"
      (Headers.of_list [("Origin", "http://localhost:3000")]) None in
  exists response,
    Worker.fetch request now st = (Returned response, st) /\
    Response.status response = 404 /\
    Response.body response = PlainText "Not Found" /\
    Headers.get (Response.headers response) "Access-Control-Allow-Origin" = None.
Proof.
  cbn zeta. eexists. split; [reflexivity|]. split; [reflexivity|].
  split; [reflexivity|]. vm_compute. reflexivity.
Qed.

(** ** Failures of the store *)

(** C7. Evaluated on a bucket whose next call fails, [handleGet] does
    not answer: the failure of [get] escapes the handler, and [fetch],
    as a raw exception. *)
Theorem handleGet_store_failure_escapes (key : string)
    (headers : gmap string string) (now : Z)
    (objs : gmap string Store.Object) (rest : list bool)
    (etag_of : list Byte.byte -> string) :
  let request := Request.mk "GET" ("/img/" +:+ key) headers None in
  let st := Store.mk objs (true :: rest) etag_of in
  Worker.handleGet request key st
  = (Thrown "store: get failed", Store.mk objs rest etag_of) /\
  Worker.fetch request now st
  = (Thrown "store: get failed", Store.mk objs rest etag_of).
Proof.
  cbn zeta. split.
  - apply handleGet_failure. reflexivity.
  - unfold Worker.fetch. cbn [Request.method Request.pathname].
    change (Text.eqb "GET" "OPTIONS") with false.
    change (Text.eqb "GET" "POST") with false.
    change (Text.eqb "GET" "GET") with true. cbn iota.
    change (JS.substring ("/img/" +:+ key) 5) with key.
    apply handleGet_failure. reflexivity.
Qed.

(** ** Accepted uploads *)

(** C8. Evaluated on a valid image upload to the earlier server whose
    put succeeds: the payload is stored, under the uploaded name, and the
    answer is 200 with the message "File uploaded successfully" and no
    [filename] at all, where a body with the message "Image uploaded
    successfully" and the [filename] is specified. *)
Theorem legacy_upload_without_filename :
  let st := Store.mk ∅ [] (fun _ => "etag") in
  let fh := Fiber.mkFileHeader "cat.jpg"
              (Headers.of_list [("Content-Type", "image/jpeg")])
              (Fiber.Readable [Byte.x01; Byte.x02]) in
  let svc := S3.mkS3Service "acct" "id" "secret" "images" in
  let c := Fiber.mkCtx (Some [("file", fh)]) in
  Fiber.FormFile c "file" = Ok fh /\
  Go.HasPrefix (Fiber.Header_Get fh "Content-Type") "image/" = true /\
  exists response st',
    ServerLegacy.upload svc c st = (response, st') /\
    Store.objects st' !! "cat.jpg"
    = Some (Store.mkObject [Byte.x01; Byte.x02] (Some "image/jpeg") "etag") /\
    Response.status response = 200 /\
    Json_field (Response.body response) "message"
    = Some "File uploaded successfully" /\
    Json_field (Response.body response) "filename" = None.
Proof.
  cbn zeta. split; [reflexivity|]. split; [reflexivity|].
  eexists _, _. split; [reflexivity|]. repeat split.
Qed.

(** ** Start-up of the server *)

(** C9, as amended. Whenever one of the four storage credentials is
    missing (unset or empty) from the environment, start-up fails with a
    fatal configuration error and the server never handles a request:
    with the [.env] file loaded the error is "missing required
    environment variables", and without a loadable [.env] file start-up
    is fatal in any case.  No failure at request time stands in for this
    check: a server that handles requests holds the four credentials,
    none empty.  (The converse is not claimed: start-up is fatal for
    other reasons too.) *)
Theorem startup_fatal (dotenv : option (gmap string string))
    (env : gmap string string) (sdk listen : result unit) :
  (forall vars,
      dotenv = Some vars ->
      Spec.credential_missing (env ∪ vars) ->
      Server.main dotenv env sdk listen
      = Server.Fatal
          "Error initializing R2 service: missing required environment variables") /\
  (dotenv = None ->
   Server.main dotenv env sdk listen = Server.Fatal "Error loading .env file") /\
  (forall svc addr,
      Server.main dotenv env sdk listen = Server.Listening svc addr ->
      exists vars,
        dotenv = Some vars /\
        ~ Spec.credential_missing (env ∪ vars) /\
        svc = S3.mkS3Service
                (Server.Getenv (env ∪ vars) "CLOUDFLARE_ACCOUNT_ID")
                (Server.Getenv (env ∪ vars) "CLOUDFLARE_ACCESS_KEY_ID")
                (Server.Getenv (env ∪ vars) "CLOUDFLARE_ACCESS_KEY_SECRET")
                (Server.Getenv (env ∪ vars) "CLOUDFLARE_BUCKET_NAME")).
Proof.
  unfold Server.main, Server.godotenv_Load.
  destruct dotenv as [vars|].
  2:{ split; [intros vars H; discriminate|]. split; [reflexivity|].
      intros svc addr H. discriminate. }
  unfold Server.NewR2Service. pose proof (credentials_test (env ∪ vars)) as Ht.
  destruct (_ || _ || _ || _) eqn:Htest.
  - split; [intros vars' _ _; reflexivity|]. split; [discriminate|].
    intros svc addr H. discriminate.
  - assert (~ Spec.credential_missing (env ∪ vars)) as Hnone
        by (intros H; apply Ht in H; discriminate).
    split.
    { intros vars' Hv Hmiss. inversion Hv; subst. contradiction. }
    split; [discriminate|].
    intros svc addr H. destruct sdk as [[]|e]; [|discriminate].
    destruct listen as [[]|e]; [|discriminate].
    inversion H; subst. eauto.
Qed.

Lemma startup_fatal_witness :
  let partial : gmap string string :=
    <["CLOUDFLARE_ACCOUNT_ID" := "acct"]>
      (<["CLOUDFLARE_ACCESS_KEY_ID" := "id"]>
         (<["CLOUDFLARE_ACCESS_KEY_SECRET" := "secret"]> ∅)) in
  let dotenv : gmap string string :=
    <["CLOUDFLARE_BUCKET_NAME" := "images"]> partial in
  Server.main (Some ∅) partial (Ok tt) (Ok tt)
  = Server.Fatal
      "Error initializing R2 service: missing required environment variables" /\
  Server.main None partial (Ok tt) (Ok tt) = Server.Fatal "Error loading .env file" /\
  (exists vars,
      Some dotenv = Some vars /\ ~ Spec.credential_missing (∅ ∪ vars)).
Proof.
  intros partial dotenv. split; [|split].
  - destruct (startup_fatal (Some ∅) partial (Ok tt) (Ok tt)) as [Hfatal _].
    apply (Hfatal ∅); [reflexivity|].
    exists "CLOUDFLARE_BUCKET_NAME". split; [|left; reflexivity].
    unfold Server.credentials. set_solver.
  - destruct (startup_fatal None partial (Ok tt) (Ok tt)) as (_ & Hnone & _).
    apply Hnone. reflexivity.
  - destruct (startup_fatal (Some dotenv) ∅ (Ok tt) (Ok tt)) as (_ & _ & Hlisten).
    destruct (Hlisten (S3.mkS3Service "acct" "id" "secret" "images") ":8081")
      as (vars & Hload & Hnone & _); [reflexivity|].
    exists vars. split; assumption.
Defined.

(** C9, as stated, fails: with the four credentials in the environment
    and no readable [.env] file, start-up is fatal although no
    credential is missing. *)
Lemma startup_fatal_with_credentials :
  let env : gmap string string :=
    <["CLOUDFLARE_ACCOUNT_ID" := "acct"]>
      (<["CLOUDFLARE_ACCESS_KEY_ID" := "id"]>
         (<["CLOUDFLARE_ACCESS_KEY_SECRET" := "secret"]>
            (<["CLOUDFLARE_BUCKET_NAME" := "images"]> ∅))) in
  ~ Spec.credential_missing env /\
  Server.main None env (Ok tt) (Ok tt) = Server.Fatal "Error loading .env file".
Proof.
  cbn zeta. split; [|reflexivity].
  intros H. apply credentials_test in H. vm_compute in H. discriminate.
Qed.

(** ** Requests with another method *)

(** C10. For every request whose method is none of GET, POST and
    OPTIONS, the worker answers 405 with [Allow: GET, POST] and the
    [Access-Control-Allow-Origin] header given by the allow-list rule,
    and makes no call to the store: the store, script included, is as
    before. *)
Theorem fetch_method_not_allowed (request : Request.t) (now : Z) (st : Store.t) :
  Request.method request <> "GET" ->
  Request.method request <> "POST" ->
  Request.method request <> "OPTIONS" ->
  exists response,
    Worker.fetch request now st = (Returned response, st) /\
    Response.status response = 405 /\
    Headers.get (Response.headers response) "Allow" = Some "GET, POST" /\
    Headers.get (Response.headers response) "Access-Control-Allow-Origin"
    = Spec.allowed_origin Worker.ALLOWED_ORIGINS
        (Headers.get (Request.headers request) "Origin").
Proof.
  intros Hget Hpost Hopt. unfold Worker.fetch.
  apply eqb_false in Hget, Hpost, Hopt. rewrite Hget, Hpost, Hopt.
  eexists. split; [reflexivity|]. rewrite <- getAllowedOrigin_rule.
  split; [reflexivity|]. split; header_lookup.
Qed.

Lemma fetch_method_not_allowed_witness :
  exists response,
    Worker.fetch (Request.mk "DELETE" "/img/cat.jpg" Headers.empty None) 0
      (Store.mk ∅ [] (fun _ => "")) = (Returned response, Store.mk ∅ [] (fun _ => "")) /\
    Response.status response = 405 /\
    Headers.get (Response.headers response) "Allow" = Some "GET, POST" /\
    Headers.get (Response.headers response) "Access-Control-Allow-Origin"
    = Some "https://img.jer.ee".
Proof.
  apply (fetch_method_not_allowed
           (Request.mk "DELETE" "/img/cat.jpg" Headers.empty None) 0
           (Store.mk ∅ [] (fun _ => ""))); discriminate.
Defined.

(** * Further properties of the code *)

(** ** The worker's origin policy *)

Lemma getAllowedOrigin_in request :
  Worker.getAllowedOrigin request ∈ Worker.ALLOWED_ORIGINS.
Proof.
  pose proof (getAllowedOrigin_rule request) as R.
  unfold Spec.allowed_origin in R.
  destruct (Headers.get (Request.headers request) "Origin") as [o|].
  - destruct (bool_decide (o ∈ Worker.ALLOWED_ORIGINS)) eqn:E.
    + apply bool_decide_eq_true in E. inversion R; subst. exact E.
    + inversion R as [R']. unfold Worker.ALLOWED_ORIGINS. set_solver.
  - inversion R as [R']. unfold Worker.ALLOWED_ORIGINS. set_solver.
Qed.

(** X1. [getAllowedOrigin] always answers with an entry of the
    allow-list, and it answers with the request's own origin exactly when
    that origin is listed. *)
Theorem getAllowedOrigin_listed (request : Request.t) :
  Worker.getAllowedOrigin request ∈ Worker.ALLOWED_ORIGINS /\
  forall o,
    Headers.get (Request.headers request) "Origin" = Some o ->
    (Worker.getAllowedOrigin request = o <-> o ∈ Worker.ALLOWED_ORIGINS).
Proof.
  pose proof (getAllowedOrigin_rule request) as R.
  pose proof (getAllowedOrigin_in request) as Hin.
  split; [exact Hin|]. intros o Ho. split.
  - intros <-. exact Hin.
  - intros Hlisted. rewrite Ho in R. unfold Spec.allowed_origin in R.
    rewrite bool_decide_eq_true_2 in R by assumption. congruence.
Qed.

Lemma getAllowedOrigin_listed_witness :
  let request :=
    Request.mk "GET" "/img/cat.jpg"
      (Headers.of_list [("Origin", "https://evil.example")]) None in
  Worker.getAllowedOrigin request ∈ Worker.ALLOWED_ORIGINS /\
  (Worker.getAllowedOrigin request = "https://evil.example" <->
   "https://evil.example" ∈ Worker.ALLOWED_ORIGINS).
Proof.
  intros request. destruct (getAllowedOrigin_listed request) as [Hin Hecho].
  split; [exact Hin|]. apply Hecho. reflexivity.
Defined.

(** X2. A preflight is answered whatever its path, origin or body: 200,
    no body, the origin of the allow-list rule, the three allowed methods
    and the two allowed headers; the store is not called. *)
Theorem fetch_preflight (request : Request.t) (now : Z) (st : Store.t) :
  Request.method request = "OPTIONS" ->
  exists response,
    Worker.fetch request now st = (Returned response, st) /\
    Response.status response = 200 /\
    Response.body response = NoBody /\
    Headers.get (Response.headers response) "Access-Control-Allow-Origin"
    = Some (Worker.getAllowedOrigin request) /\
    Headers.get (Response.headers response) "Access-Control-Allow-Methods"
    = Some "GET, POST, OPTIONS" /\
    Headers.get (Response.headers response) "Access-Control-Allow-Headers"
    = Some "Content-Type, Accept" /\
    Headers.get (Response.headers response) "Content-Type" = None.
Proof.
  intros Hm. unfold Worker.fetch. rewrite Hm.
  change (Text.eqb "OPTIONS" "OPTIONS") with true. cbn iota.
  eexists. split; [reflexivity|]. split; [reflexivity|]. split; [reflexivity|].
  repeat split; header_lookup.
Qed.

Lemma fetch_preflight_witness :
  exists response,
    Worker.fetch (Request.mk "OPTIONS" "/anything" Headers.empty None) 0
      (Store.mk ∅ [true] (fun _ => ""))
    = (Returned response, Store.mk ∅ [true] (fun _ => "")) /\
    Response.status response = 200 /\
    Headers.get (Response.headers response) "Access-Control-Allow-Origin"
    = Some "https://img.jer.ee".
Proof.
  destruct (fetch_preflight (Request.mk "OPTIONS" "/anything" Headers.empty None)
              0 (Store.mk ∅ [true] (fun _ => "")))
    as (r & E & Hs & _ & Ho & _); [reflexivity|].
  exists r. split; [exact E|]. split; [exact Hs|exact Ho].
Defined.

(** X3. No answer of the worker ever carries an origin outside the
    allow-list: whatever the request, an [Access-Control-Allow-Origin]
    header on the answer holds one of the two listed origins. *)
Theorem fetch_origin_always_listed (request : Request.t) (now : Z)
    (st st' : Store.t) (response : Response.t) (o : string) :
  Worker.fetch request now st = (Returned response, st') ->
  Headers.get (Response.headers response) "Access-Control-Allow-Origin" = Some o ->
  o ∈ Worker.ALLOWED_ORIGINS.
Proof.
  intros Hfetch Ho.
  destruct (fetch_cors request now st response st' Hfetch) as [[Hpost Hpath]|Hc].
  - unfold Worker.fetch in Hfetch. rewrite Hpost in Hfetch.
    change (Text.eqb "POST" "OPTIONS") with false in Hfetch.
    change (Text.eqb "POST" "POST") with true in Hfetch. cbn iota in Hfetch.
    apply eqb_false in Hpath. rewrite Hpath in Hfetch.
    inversion Hfetch; subst. vm_compute in Ho. discriminate.
  - rewrite Hc in Ho. inversion Ho; subst.
    apply getAllowedOrigin_in.
Qed.

Lemma fetch_origin_always_listed_witness :
  "https://img.jer.ee" ∈ Worker.ALLOWED_ORIGINS.
Proof.
  eapply (fetch_origin_always_listed
            (Request.mk "DELETE" "/img/cat.jpg"
               (Headers.of_list [("Origin", "https://evil.example")]) None)
            0 (Store.mk ∅ [] (fun _ => ""))).
  - reflexivity.
  - vm_compute. reflexivity.
Defined.

(** ** Routing in the worker *)

Lemma handleGet_origin_only r1 r2 key st :
  Worker.getAllowedOrigin r1 = Worker.getAllowedOrigin r2 ->
  Worker.handleGet r1 key st = Worker.handleGet r2 key st.
Proof. intros H. unfold Worker.handleGet. rewrite H. reflexivity. Qed.

(** X4. A GET is routed on what follows the first five characters of the
    path, whatever those five are: two GETs with the same headers whose
    paths agree from the sixth character on get the same answer, at any
    instants.  The [/img/] prefix is not checked. *)
Theorem fetch_get_ignores_prefix (r1 r2 : Request.t) (t1 t2 : Z) (st : Store.t) :
  Request.method r1 = "GET" ->
  Request.method r2 = "GET" ->
  Request.headers r1 = Request.headers r2 ->
  Text.drop 5 (Request.pathname r1) = Text.drop 5 (Request.pathname r2) ->
  Worker.fetch r1 t1 st = Worker.fetch r2 t2 st.
Proof.
  intros H1 H2 Hh Hp. unfold Worker.fetch, JS.substring. rewrite H1, H2, Hp.
  change (Text.eqb "GET" "OPTIONS") with false.
  change (Text.eqb "GET" "POST") with false.
  change (Text.eqb "GET" "GET") with true. cbn iota.
  apply handleGet_origin_only. unfold Worker.getAllowedOrigin. rewrite Hh.
  reflexivity.
Qed.

Lemma fetch_get_ignores_prefix_witness :
  let st :=
    Store.mk {[ "cat.jpg" := Store.mkObject [Byte.x01] (Some "image/jpeg") "e" ]}
      [] (fun _ => "e") in
  Worker.fetch (Request.mk "GET" "/img/cat.jpg" Headers.empty None) 1 st
  = Worker.fetch (Request.mk "GET" "/zzzzcat.jpg" Headers.empty None) 2 st.
Proof.
  intros st. apply fetch_get_ignores_prefix; reflexivity.
Defined.

(** ** The worker's upload handler *)

Lemma valid_image_upload_unique request f1 f2 :
  Spec.valid_image_upload request f1 ->
  Spec.valid_image_upload request f2 -> f1 = f2.
Proof.
  intros [(fd1 & H1 & G1) _] [(fd2 & H2 & G2) _]. congruence.
Qed.

Lemma put_call key bytes ct st :
  Store.put key bytes ct st
  = if fst (Store.call st)
    then (Err "store: put failed", snd (Store.call st))
    else (Ok tt,
          Store.write key
            (Store.mkObject bytes (Some ct) (Store.etag_of st bytes))
            (snd (Store.call st))).
Proof.
  unfold Store.put. pose proof (call_etag_of st) as He.
  destruct (Store.call st) as [failing s1]. cbn in *. rewrite He. reflexivity.
Qed.

(** What the upload handler does to the request it is given. *)
Lemma handleUpload_verdict request now st :
  (exists file, Spec.valid_image_upload request file) \/
  (Request.formData request = None /\
   Worker.handleUpload request now st
   = (Returned (upload_error request 500 "Failed to upload file"), st)) \/
  ((exists fd, Request.formData request = Some fd) /\
   exists msg, Worker.handleUpload request now st
               = (Returned (upload_error request 400 msg), st)).
Proof.
  destruct (Request.formData request) as [fd|] eqn:Hfd.
  - destruct (FormData_get fd "file") as [[s|file]|] eqn:Hfile.
    + right. right. split; [eauto|]. eexists. apply handleUpload_no_file.
      exists fd. split; [done|]. intros f. rewrite Hfile. discriminate.
    + destruct (JS.startsWith (File.type file) "image/") eqn:Hty.
      * left. exists file. split; eauto.
      * right. right. split; [eauto|]. eexists.
        eapply handleUpload_not_image; eauto.
    + right. right. split; [eauto|]. eexists. apply handleUpload_no_file.
      exists fd. split; [done|]. intros f. rewrite Hfile. discriminate.
  - right. left. split; [reflexivity|]. apply handleUpload_unparsed. assumption.
Qed.

Lemma call_script st :
  Store.script (snd (Store.call st)) = tail (Store.script st).
Proof.
  unfold Store.call. destruct (Store.script st) eqn:E; cbn; [|reflexivity].
  exact E.
Qed.

(** X5. The upload handler always answers, with 200, 400 or 500, having
    made at most one call to the store.  It answers 200 exactly when the
    request is a valid image upload and the put went through, and 500
    exactly when the body is not a form or the put of a valid upload
    failed. *)
Theorem handleUpload_status (request : Request.t) (now : Z) (st : Store.t) :
  exists response st',
    Worker.handleUpload request now st = (Returned response, st') /\
    (Store.script st' = Store.script st \/
     Store.script st' = tail (Store.script st)) /\
    (Response.status response = 200 <->
     (exists file, Spec.valid_image_upload request file) /\
     fst (Store.call st) = false) /\
    (Response.status response = 500 <->
     Request.formData request = None \/
     (exists file, Spec.valid_image_upload request file) /\
     fst (Store.call st) = true) /\
    (Response.status response = 200 \/ Response.status response = 400 \/
     Response.status response = 500).
Proof.
  destruct (handleUpload_verdict request now st)
    as [[file Hv] | [[Hnone E] | [[fd Hfd] [msg E]]]].
  - rewrite (handleUpload_valid request file now st Hv), put_call.
    assert (Request.formData request <> None) as Hform
        by (destruct Hv as [(fd & -> & _) _]; discriminate).
    pose proof (call_script st) as Hs.
    destruct (fst (Store.call st)) eqn:Hcall.
    + eexists _, _. split; [reflexivity|]. split; [right; exact Hs|].
      split; [|split].
      * split; [discriminate|]. intros [_ H]. discriminate.
      * split; [intros _; right; eauto|reflexivity].
      * right. right. reflexivity.
    + eexists _, _. split; [reflexivity|]. split; [right; exact Hs|].
      split; [|split].
      * split; [eauto|reflexivity].
      * split; [discriminate|]. intros [H|[_ H]]; [contradiction|discriminate].
      * left. reflexivity.
  - rewrite E. eexists _, _. split; [reflexivity|]. split; [left; reflexivity|].
    split; [|split].
    + split; [discriminate|]. intros [[file [(fd & Hfd & _) _]] _]. congruence.
    + split; [intros _; left; assumption|reflexivity].
    + right. right. reflexivity.
  - rewrite E. eexists _, _. split; [reflexivity|]. split; [left; reflexivity|].
    assert (~ exists file, Spec.valid_image_upload request file) as Hnv.
    { intros [file Hv]. rewrite (handleUpload_valid request file now st Hv) in E.
      destruct (Store.put _ _ _ st) as [[[]|e] s1]; inversion E. }
    split; [|split].
    + split; [discriminate|]. intros [H _]. contradiction.
    + split; [discriminate|]. intros [H|[H _]]; [congruence|contradiction].
    + right. left. reflexivity.
Qed.

Lemma handleUpload_status_witness :
  exists response st',
    Worker.handleUpload
      (Request.mk "POST" "/img/upload" Headers.empty
         (Some [("file", FieldString "cat.jpg")])) 0
      (Store.mk ∅ [] (fun _ => "")) = (Returned response, st') /\
    Response.status response = 400.
Proof.
  destruct (handleUpload_status
              (Request.mk "POST" "/img/upload" Headers.empty
                 (Some [("file", FieldString "cat.jpg")])) 0
              (Store.mk ∅ [] (fun _ => "")))
    as (r & st' & E & _ & H200 & H500 & Hs).
  exists r, st'. split; [exact E|].
  destruct Hs as [Hs|[Hs|Hs]]; [|exact Hs|].
  - apply H200 in Hs as [[file [(fd & Hfd & Hfile) _]] _].
    inversion Hfd; subst fd. discriminate.
  - apply H500 in Hs as [Hs|[[file [(fd & Hfd & Hfile) _]] _]]; [discriminate|].
    inversion Hfd; subst fd. discriminate.
Defined.

(** X6. An upload touches at most the key it reports: an answer other
    than 200 leaves every object of the bucket as it was, and an answer
    200 names a key in [filename], holds the uploaded object under that
    key, and leaves every other key as it was. *)
Theorem handleUpload_frame (request : Request.t) (now : Z) (st st' : Store.t)
    (response : Response.t) :
  Worker.handleUpload request now st = (Returned response, st') ->
  (Response.status response <> 200 -> Store.objects st' = Store.objects st) /\
  (Response.status response = 200 ->
   exists file key,
     Spec.valid_image_upload request file /\
     Json_field (Response.body response) "filename" = Some key /\
     Store.objects st' !! key = Some (Spec.stored file st) /\
     forall k, k <> key -> Store.objects st' !! k = Store.objects st !! k).
Proof.
  intros H.
  destruct (handleUpload_verdict request now st)
    as [[file Hv] | [[Hnone E] | [[fd Hfd] [msg E]]]].
  - rewrite (handleUpload_valid request file now st Hv), put_call in H.
    pose proof (call_objects st) as Ho.
    destruct (fst (Store.call st)); inversion H; subst; clear H.
    + split; [intros _; exact Ho|]. intros Hs. discriminate.
    + split; [intros Hs; exfalso; apply Hs; reflexivity|]. intros _.
      exists file, (Worker.filename (File.name file) now).
      split; [assumption|]. split; [reflexivity|]. cbn. rewrite Ho. split.
      * apply lookup_insert_eq.
      * intros k Hk. apply lookup_insert_ne. congruence.
  - rewrite E in H. inversion H; subst. split; [reflexivity|]. discriminate.
  - rewrite E in H. inversion H; subst. split; [reflexivity|]. discriminate.
Qed.

Lemma handleUpload_frame_witness :
  let other := Store.mkObject [Byte.x09] (Some "image/gif") "old" in
  let cat := File.mk "cat.jpg" "image/jpeg" [Byte.x01] in
  let request :=
    Request.mk "POST" "/img/upload" Headers.empty
      (Some [("file", FieldFile cat)]) in
  let st := Store.mk {[ "dog.gif" := other ]} [] (fun _ => "new") in
  exists st',
    snd (Worker.handleUpload request 1730619000000 st) = st' /\
    Store.objects st' !! "cat-f0ee44c0.jpg" = Some (Spec.stored cat st) /\
    Store.objects st' !! "dog.gif" = Some other.
Proof.
  intros other cat request st.
  destruct (handleUpload_frame request 1730619000000 st
              (snd (Worker.handleUpload request 1730619000000 st))
              (upload_ok request "cat-f0ee44c0.jpg"))
    as [_ Hok]; [reflexivity|].
  destruct Hok as (file & key & Hv & Hkey & Hnew & Hothers); [reflexivity|].
  eexists. split; [reflexivity|].
  inversion Hkey; subst key.
  rewrite (valid_image_upload_unique request file cat Hv) in Hnew.
  - split; [exact Hnew|]. rewrite Hothers by discriminate. reflexivity.
  - split; [|reflexivity]. eexists. split; reflexivity.
Defined.

(** ** The worker's retrieval handler *)

(** X7. Retrieval only reads: whatever the outcome, the bucket's objects
    are as before; and a GET that was answered is answered identically
    when repeated, provided the store call of the repetition goes
    through. *)
Theorem handleGet_reads_only (request : Request.t) (key : string)
    (st st' : Store.t) (out : outcome Response.t) :
  Worker.handleGet request key st = (out, st') ->
  Store.objects st' = Store.objects st /\
  forall response,
    out = Returned response ->
    fst (Store.call st') = false ->
    Worker.handleGet request key st' = (Returned response, snd (Store.call st')).
Proof.
  intros H. unfold Worker.handleGet, mbind, M_bind, await in *.
  unfold Store.get in *. pose proof (call_objects st) as Ho.
  pose proof (call_objects st') as Ho'.
  destruct (Store.call st) as [failing s1]. cbn in Ho.
  destruct failing.
  - inversion H; subst. split; [exact Ho|]. discriminate.
  - assert (st' = s1) as ->.
    { destruct (Store.objects s1 !! key); inversion H; reflexivity. }
    split; [exact Ho|]. intros response -> Hcall.
    destruct (Store.call s1) as [failing s2]. cbn in Hcall, Ho' |- *.
    subst failing. rewrite Ho'.
    destruct (Store.objects s1 !! key); inversion H; reflexivity.
Qed.

Lemma handleGet_reads_only_witness :
  let st :=
    Store.mk {[ "cat.jpg" := Store.mkObject [Byte.x01] (Some "image/jpeg") "e" ]}
      [] (fun _ => "e") in
  let request := Request.mk "GET" "/img/cat.jpg" Headers.empty None in
  exists response,
    Worker.handleGet request "cat.jpg" st = (Returned response, st) /\
    Response.body response = Bytes [Byte.x01].
Proof.
  intros st request.
  destruct (handleGet_reads_only request "cat.jpg" st st
              (fst (Worker.handleGet request "cat.jpg" st)))
    as [_ Hagain]; [reflexivity|].
  eexists. split; [apply Hagain; reflexivity|reflexivity].
Defined.

(** X8. The answer to a GET for a stored object carries exactly three
    kinds of header: the store's etag for the object, the allow-list
    origin, and the recorded content type; when no content type is
    recorded there is no [Content-Type] header at all, and no other
    header (cache control, length, ...) is ever set. *)
Theorem handleGet_headers (request : Request.t) (key : string)
    (st st' : Store.t) (o : Store.Object) :
  Store.get key st = (Ok (Some o), st') ->
  exists response,
    Worker.handleGet request key st = (Returned response, st') /\
    forall name,
      Headers.get (Response.headers response) name
      = if bool_decide (Text.lower name = "access-control-allow-origin")
        then Some (Worker.getAllowedOrigin request)
        else if bool_decide (Text.lower name = "etag")
        then Some (Store.httpEtag o)
        else if bool_decide (Text.lower name = "content-type")
        then Store.contentType o
        else None.
Proof.
  intros H. unfold Worker.handleGet.
  erewrite bind_returned by (unfold await; rewrite H; reflexivity).
  eexists. split; [reflexivity|]. intros name.
  cbn [Worker.new_Response Response.headers andb].
  unfold Headers.get, Headers.set, Worker.writeHttpMetadata.
  change (Text.lower "Access-Control-Allow-Origin")
    with "access-control-allow-origin".
  change (Text.lower "etag") with "etag".
  generalize (Text.lower name). intros n.
  destruct (decide (n = "access-control-allow-origin")) as [->|N1].
  { rewrite lookup_insert_eq. reflexivity. }
  rewrite lookup_insert_ne, (bool_decide_eq_false_2 _ N1) by congruence.
  destruct (decide (n = "etag")) as [->|N2].
  { rewrite lookup_insert_eq. reflexivity. }
  rewrite lookup_insert_ne, (bool_decide_eq_false_2 _ N2) by congruence.
  destruct (Store.contentType o) as [ct|].
  - unfold Headers.set. change (Text.lower "Content-Type") with "content-type".
    destruct (decide (n = "content-type")) as [->|N3].
    { rewrite lookup_insert_eq. reflexivity. }
    rewrite lookup_insert_ne, (bool_decide_eq_false_2 _ N3) by congruence.
    apply lookup_empty.
  - unfold Headers.empty. rewrite lookup_empty. case_bool_decide; reflexivity.
Qed.

Lemma handleGet_headers_witness :
  let st :=
    Store.mk {[ "raw" := Store.mkObject [Byte.x01] None "e1" ]} [] (fun _ => "") in
  exists response,
    Worker.handleGet (Request.mk "GET" "/img/raw" Headers.empty None) "raw" st
    = (Returned response, st) /\
    Headers.get (Response.headers response) "ETag" = Some "e1" /\
    Headers.get (Response.headers response) "Content-Type" = None.
Proof.
  intros st.
  destruct (handleGet_headers (Request.mk "GET" "/img/raw" Headers.empty None)
              "raw" st st (Store.mkObject [Byte.x01] None "e1"))
    as (r & E & Hh); [reflexivity|].
  exists r. split; [exact E|]. split; rewrite Hh; reflexivity.
Defined.

(** ** Keys and names *)

Lemma app_inj_len a b h1 h2 :
  String.length h1 = String.length h2 ->
  a +:+ h1 = b +:+ h2 -> a = b /\ h1 = h2.
Proof.
  intros Hlen H.
  assert (String.length a = String.length b) as Hab.
  { apply (f_equal String.length) in H. rewrite !length_app in H. lia. }
  revert b H Hab. induction a as [|x a IH]; intros [|y b] H Hab;
    cbn in Hab; try discriminate.
  - split; [reflexivity|exact H].
  - rewrite !app_cons in H. inversion H; subst.
    destruct (IH b) as [-> ->]; [assumption|lia|]. split; reflexivity.
Qed.

Lemma all_chars_app p a b :
  all_chars p (a +:+ b) = all_chars p a && all_chars p b.
Proof.
  induction a as [|x a IH]; [reflexivity|]. rewrite app_cons. cbn.
  rewrite IH, andb_assoc. reflexivity.
Qed.

Lemma hex_digit_is_hex d : is_hex_char (Text.hex_digit d) = true.
Proof.
  destruct d as [|p|p]; try reflexivity.
  do 4 (try destruct p as [p|p|]); reflexivity.
Qed.

Lemma hex_fixed_is_hex k n : all_chars is_hex_char (Text.hex_fixed k n) = true.
Proof.
  revert n. induction k as [|k IH]; intros n; [reflexivity|]. cbn [Text.hex_fixed].
  rewrite all_chars_app, IH. cbn [all_chars andb].
  rewrite hex_digit_is_hex. reflexivity.
Qed.

Lemma hex_chars_no_dot s :
  all_chars is_hex_char s = true -> Text.contains "." s = false.
Proof.
  induction s as [|c s IH]; [reflexivity|]. cbn. intros H.
  apply andb_true_iff in H as [Hc Hs].
  destruct (Ascii.eqb c ".") eqn:E; [|auto].
  apply Ascii.eqb_eq in E. subst c. discriminate.
Qed.

(** The extension of a name with a dot: a dot and a dot-free rest. *)
Lemma ext_shape f :
  Text.contains "." f = true ->
  exists l, Spec.ext f = String "." l /\ Text.contains "." l = false.
Proof.
  induction f as [|c f IH]; [discriminate|]. cbn.
  destruct (Text.contains "." f) eqn:Hf.
  - intros _. destruct (Ascii.eqb c "."); apply IH; reflexivity.
  - destruct (Ascii.eqb c ".") eqn:Hc; [|discriminate]. intros _.
    apply Ascii.eqb_eq in Hc. subst c. exists f. split; [reflexivity|exact Hf].
Qed.

(** A key keeps the extension of the name it was derived from. *)
Lemma key_ext f h :
  Text.contains "." h = false -> Spec.ext (Spec.key f h) = Spec.ext f.
Proof.
  intros Hh. unfold Spec.key.
  destruct (Text.contains "." f) eqn:Hf.
  - destruct (ext_shape f Hf) as (l & -> & Hl).
    rewrite <- !app_assoc. apply ext_app_dot. exact Hl.
  - rewrite (ext_plain f Hf). apply ext_plain.
    rewrite !contains_app, Hh. unfold Spec.base. rewrite (ext_plain f Hf).
    rewrite Nat.sub_0_r, take_all, Hf by lia. reflexivity.
Qed.

(** The specified key determines the name and the suffix, for dot-free
    suffixes of one length. *)
Lemma key_inj f1 f2 h1 h2 :
  Text.contains "." h1 = false -> Text.contains "." h2 = false ->
  String.length h1 = String.length h2 ->
  Spec.key f1 h1 = Spec.key f2 h2 -> f1 = f2 /\ h1 = h2.
Proof.
  intros Hd1 Hd2 Hlen H.
  assert (Spec.ext f1 = Spec.ext f2) as He.
  { rewrite <- (key_ext f1 h1 Hd1), <- (key_ext f2 h2 Hd2), H. reflexivity. }
  unfold Spec.key in H. rewrite He in H. rewrite <- !app_assoc in H.
  apply app_inj_r in H.
  apply app_inj_len in H as [Hb Hh]; [|assumption].
  apply app_inj_r in Hb. split; [|exact Hh].
  rewrite <- (base_ext f1), <- (base_ext f2), Hb, He. reflexivity.
Qed.

(** X9. For a name [base.e] whose part [e] after the last dot has no
    dot, the worker's key is [base-hash.e]: the suffix is inserted just
    before the last dot and nothing else of the name changes. *)
Theorem Worker_filename_shape (base e : string) (now : Z) :
  Text.contains "." e = false ->
  Worker.filename (base +:+ "." +:+ e) now
  = base +:+ "-" +:+ Worker.hash now +:+ "." +:+ e.
Proof.
  intros He.
  assert (Text.contains "." (base +:+ "." +:+ e) = true) as Hdot.
  { rewrite contains_app. cbn. rewrite orb_true_r. reflexivity. }
  rewrite (Worker_filename_dotted _ now Hdot). unfold Spec.key, Spec.base.
  change ("." +:+ e) with (String "." e). rewrite (ext_app_dot base e He).
  rewrite length_app.
  replace (String.length base + String.length (String "." e)
           - String.length (String "." e))%nat
    with (String.length base) by lia.
  rewrite take_app. reflexivity.
Qed.

Lemma Worker_filename_shape_witness :
  Worker.filename "holiday.2024.png" 1730619000000
  = "holiday.2024-" +:+ Worker.hash 1730619000000 +:+ ".png".
Proof. apply (Worker_filename_shape "holiday.2024" "png"). reflexivity. Defined.

Lemma hex_digits_length k fuel n :
  0 <= n < 16 ^ Z.of_nat (S k) ->
  (String.length (Text.hex_digits fuel n) <= S k)%nat.
Proof.
  revert fuel n. induction k as [|k IH]; intros fuel n [Hlo Hhi].
  - destruct fuel as [|fuel]; [cbn; lia|]. cbn [Text.hex_digits].
    change (16 ^ Z.of_nat 1) with 16 in Hhi. apply Z.ltb_lt in Hhi as ->.
    cbn. lia.
  - destruct fuel as [|fuel]; [cbn; lia|]. cbn [Text.hex_digits].
    destruct (n <? 16); [cbn; lia|]. rewrite length_app.
    assert (String.length (Text.hex_digits fuel (n / 16)) <= S k)%nat.
    { apply IH. rewrite (Nat2Z.inj_succ (S k)), Z.pow_succ_r in Hhi by lia. split.
      - apply Z.div_pos; lia.
      - apply Z.div_lt_upper_bound; lia. }
    cbn. lia.
Qed.

(** X10. From the clock value [16^7] on (four days into 1970) the
    worker's suffix is exactly eight lower-case hexadecimal digits; for a
    smaller non-negative clock it is the whole hexadecimal rendering,
    which is shorter. *)
Theorem Worker_hash_format (now : Z) :
  (16 ^ 7 <= now ->
   String.length (Worker.hash now) = 8%nat /\
   all_chars is_hex_char (Worker.hash now) = true) /\
  (0 <= now < 16 ^ 7 ->
   Worker.hash now = JS.toString16 now /\
   (String.length (Worker.hash now) <= 7)%nat).
Proof.
  split.
  - intros H. rewrite (Worker_hash_low now H).
    split; [apply hex_fixed_length|apply hex_fixed_is_hex].
  - intros [Hlo Hhi].
    assert (String.length (JS.toString16 now) <= 7)%nat as Hlen.
    { unfold JS.toString16, Text.hex.
      destruct (now <? 0) eqn:E; [apply Z.ltb_lt in E; lia|].
      apply (hex_digits_length 6). split; assumption. }
    assert (Worker.hash now = JS.toString16 now) as Heq.
    { unfold Worker.hash, JS.slice, JS.clamp, Text.len.
      change (-8 <? 0) with true. cbn iota.
      replace (Z.to_nat (Z.max (Z.of_nat (String.length (JS.toString16 now)) + -8) 0))
        with 0%nat by lia.
      cbn [Text.drop]. apply take_all. lia. }
    rewrite Heq. split; [reflexivity|exact Hlen].
Qed.

Lemma Worker_hash_format_witness :
  String.length (Worker.hash 1730619000000) = 8%nat /\
  Worker.hash 4096 = "1000".
Proof.
  destruct (Worker_hash_format 1730619000000) as [Hbig _].
  destruct (Worker_hash_format 4096) as [_ Hsmall].
  split.
  - apply Hbig. vm_compute. discriminate.
  - destruct Hsmall as [-> _]; [|reflexivity].
    split; [vm_compute; discriminate|reflexivity].
Defined.

(** X11. Two uploads of one name get the same key exactly when their
    clocks agree modulo [16^8] milliseconds (about 49.7 days): only then
    does the later upload replace the earlier object. *)
Theorem Worker_filename_collision (f : string) (t1 t2 : Z) :
  16 ^ 7 <= t1 -> 16 ^ 7 <= t2 ->
  Worker.filename f t1 = Worker.filename f t2 <-> t1 mod 16 ^ 8 = t2 mod 16 ^ 8.
Proof.
  intros H1 H2. rewrite <- (Worker_hash_eq_iff t1 t2 H1 H2).
  unfold Worker.filename. split.
  - intros H. apply String.app_inj, String.app_inj in H. eapply app_inj_r. exact H.
  - intros ->. reflexivity.
Qed.

Lemma Worker_filename_collision_witness :
  Worker.filename "photo.png" 1730619000000
  = Worker.filename "photo.png" (1730619000000 + 16 ^ 8) /\
  Worker.filename "photo.png" 1730619000000
  <> Worker.filename "photo.png" 1730619000001.
Proof.
  split.
  - apply Worker_filename_collision; [vm_compute; discriminate..|reflexivity].
  - intros H. apply Worker_filename_collision in H;
      [|vm_compute; discriminate..]. vm_compute in H. discriminate.
Defined.

(** X12. Among names that have a dot the worker's key gives back the
    name: two uploads (clocks from [16^7] on) that get the same key have
    the same name and clocks that agree modulo [16^8]. *)
Theorem Worker_filename_injective (f1 f2 : string) (t1 t2 : Z) :
  Text.contains "." f1 = true -> Text.contains "." f2 = true ->
  16 ^ 7 <= t1 -> 16 ^ 7 <= t2 ->
  Worker.filename f1 t1 = Worker.filename f2 t2 ->
  f1 = f2 /\ t1 mod 16 ^ 8 = t2 mod 16 ^ 8.
Proof.
  intros Hd1 Hd2 H1 H2 H.
  rewrite (Worker_filename_dotted f1 t1 Hd1) in H.
  rewrite (Worker_filename_dotted f2 t2 Hd2) in H.
  apply key_inj in H as [Hf Hh].
  - split; [exact Hf|]. apply (Worker_hash_eq_iff t1 t2 H1 H2). exact Hh.
  - rewrite (Worker_hash_low t1 H1). apply hex_chars_no_dot, hex_fixed_is_hex.
  - rewrite (Worker_hash_low t2 H2). apply hex_chars_no_dot, hex_fixed_is_hex.
  - rewrite (Worker_hash_low t1 H1), (Worker_hash_low t2 H2), !hex_fixed_length.
    reflexivity.
Qed.

Lemma Worker_filename_injective_witness :
  "a.png" = "a.png" /\
  1730619000000 mod 16 ^ 8 = (1730619000000 + 16 ^ 8) mod 16 ^ 8.
Proof.
  apply (Worker_filename_injective "a.png" "a.png" 1730619000000
           (1730619000000 + 16 ^ 8));
    first [reflexivity | vm_compute; discriminate].
Defined.

(** X13. A name without a dot and the same name with a dot put in front
    get the same key at the same instant: uploads of [README] and of
    [.README] replace one another. *)
Theorem Worker_filename_dotless_clash (f : string) (now : Z) :
  Text.contains "." f = false ->
  Worker.filename f now = Worker.filename ("." +:+ f) now.
Proof.
  intros Hf. rewrite (Worker_filename_plain f now Hf).
  change ("." +:+ f) with (String "." f).
  rewrite (Worker_filename_dotted (String "." f) now) by reflexivity.
  unfold Spec.key, Spec.base. cbn [Spec.ext]. rewrite Hf. cbn [Ascii.eqb].
  change (Ascii.eqb "." ".") with true. cbn iota.
  rewrite Nat.sub_diag. reflexivity.
Qed.

Lemma Worker_filename_dotless_clash_witness :
  Worker.filename "README" 1730619000000
  = Worker.filename ".README" 1730619000000.
Proof. apply (Worker_filename_dotless_clash "README"). reflexivity. Defined.

(** ** The server's key derivation *)

Lemma take_drop n s : Text.take n s +:+ Text.drop n s = s.
Proof.
  revert s. induction n as [|n IH]; intros [|c s]; try reflexivity.
  cbn [Text.take Text.drop]. rewrite app_cons, IH. reflexivity.
Qed.

Lemma drop_get i s c :
  String.get i s = Some c -> Text.drop i s = String c (Text.drop (S i) s).
Proof.
  revert s. induction i as [|i IH]; intros [|x s] H; try discriminate.
  - cbn in H. inversion H. destruct s; reflexivity.
  - cbn in H. cbn [Text.drop]. rewrite (IH s H). reflexivity.
Qed.

(** What the loop of [filepath.Ext] returns is a suffix of the path,
    empty or a dot followed by neither dot nor separator. *)
Lemma Ext_loop_result path n :
  Text.contains "." (Text.drop n path) = false ->
  Text.contains "/" (Text.drop n path) = false ->
  (exists b, path = b +:+ Go.Ext_loop path n) /\
  (Go.Ext_loop path n = "" \/
   exists l, Go.Ext_loop path n = String "." l /\
             Text.contains "." l = false /\ Text.contains "/" l = false).
Proof.
  induction n as [|i IH]; intros Hdot Hsep; cbn [Go.Ext_loop].
  - split; [exists path; rewrite app_nil_r; reflexivity|left; reflexivity].
  - destruct (String.get i path) as [c|] eqn:Hget.
    2:{ split; [exists path; rewrite app_nil_r; reflexivity|left; reflexivity]. }
    pose proof (drop_get i path c Hget) as Hd. unfold Go.IsPathSeparator.
    destruct (Ascii.eqb c "/") eqn:Hc.
    { split; [exists path; rewrite app_nil_r; reflexivity|left; reflexivity]. }
    destruct (Ascii.eqb c ".") eqn:Hc'.
    + apply Ascii.eqb_eq in Hc'. subst c. split.
      * exists (Text.take i path). symmetry. apply take_drop.
      * right. exists (Text.drop (S i) path). split; [exact Hd|]. split; assumption.
    + apply IH; rewrite Hd; cbn; rewrite ?Hc, ?Hc'; assumption.
Qed.

Lemma drop_all s : Text.drop (String.length s) s = "".
Proof. induction s as [|c s IH]; [reflexivity|exact IH]. Qed.

Lemma TrimSuffix_app b e : Go.TrimSuffix (b +:+ e) e = b.
Proof.
  unfold Go.TrimSuffix, Go.HasSuffix. rewrite length_app.
  replace (String.length b + String.length e - String.length e)%nat
    with (String.length b) by lia.
  rewrite drop_app, take_app, eqb_refl.
  replace (String.length e <=? String.length b + String.length e)%nat with true
    by (symmetry; apply Nat.leb_le; lia).
  reflexivity.
Qed.

(** X14. Whatever the uploaded name, the server splits it without loss:
    [name] followed by [ext] is the name again, and [ext] is either empty
    or a dot followed by characters that are neither dots nor path
    separators. *)
Theorem Server_name_ext (Filename : string) :
  Server.name Filename +:+ Server.ext Filename = Filename /\
  (Server.ext Filename = "" \/
   exists l, Server.ext Filename = String "." l /\
             Text.contains "." l = false /\ Text.contains "/" l = false).
Proof.
  unfold Server.name, Server.ext, Go.Ext.
  destruct (Ext_loop_result Filename (String.length Filename))
    as [[b Hb] Hshape]; try (rewrite drop_all; reflexivity).
  split; [|exact Hshape].
  rewrite Hb at 1. rewrite TrimSuffix_app. symmetry. exact Hb.
Qed.

(** X15. The server's suffix needs a clock of at least eight hexadecimal
    digits: for a non-negative clock below [16^7] the slice panics; for
    a clock of sixteen digits (nanoseconds between 2006 and the end of
    the [int64] range) it is exactly eight lower-case hexadecimal
    digits. *)
Theorem Server_hash_format (now : Z) :
  (0 <= now < 16 ^ 7 -> Server.hash now = Thrown "slice bounds out of range") /\
  (16 ^ 15 <= now < 16 ^ 16 ->
   exists h, Server.hash now = Returned h /\
             String.length h = 8%nat /\ all_chars is_hex_char h = true).
Proof.
  split.
  - intros [Hlo Hhi]. unfold Server.hash, Go.Sprintf_x, Text.hex, Go.slice_from.
    destruct (now <? 0) eqn:E; [apply Z.ltb_lt in E; lia|].
    pose proof (hex_digits_length 6 (S (Z.to_nat (Z.log2 now))) now
                  (conj Hlo Hhi)) as Hlen.
    unfold Text.hex_nonneg.
    destruct (8 <=? String.length _)%nat eqn:Hle; [|reflexivity].
    apply Nat.leb_le in Hle. lia.
  - intros H. exists (Text.hex_fixed 8 now).
    split; [apply Server_hash_low; exact H|].
    split; [apply hex_fixed_length|apply hex_fixed_is_hex].
Qed.

Lemma Server_hash_format_witness :
  Server.hash 1000000 = Thrown "slice bounds out of range" /\
  exists h, Server.hash 1730619000000000000 = Returned h /\
            String.length h = 8%nat.
Proof.
  destruct (Server_hash_format 1000000) as [Hsmall _].
  destruct (Server_hash_format 1730619000000000000) as [_ Hbig].
  split.
  - apply Hsmall. split; [vm_compute; discriminate|reflexivity].
  - destruct Hbig as (h & E & Hlen & _).
    + split; [vm_compute; discriminate|reflexivity].
    + exists h. split; assumption.
Defined.

(** X16. On the server the key gives back the name: for names without
    path separator and clocks of sixteen digits, two uploads that get
    the same key have the same name and clocks that agree modulo
    [16^8]. *)
Theorem Server_filename_injective (f1 f2 : string) (t1 t2 : Z) (h1 h2 : string) :
  Text.contains "/" f1 = false -> Text.contains "/" f2 = false ->
  16 ^ 15 <= t1 < 16 ^ 16 -> 16 ^ 15 <= t2 < 16 ^ 16 ->
  Server.hash t1 = Returned h1 -> Server.hash t2 = Returned h2 ->
  Server.filename f1 h1 = Server.filename f2 h2 ->
  f1 = f2 /\ t1 mod 16 ^ 8 = t2 mod 16 ^ 8.
Proof.
  intros Hs1 Hs2 H1 H2 E1 E2 H.
  rewrite (Server_hash_low t1 H1) in E1. rewrite (Server_hash_low t2 H2) in E2.
  assert (h1 = Text.hex_fixed 8 t1) as -> by congruence.
  assert (h2 = Text.hex_fixed 8 t2) as -> by congruence.
  rewrite (Server_filename_spec f1 _ Hs1), (Server_filename_spec f2 _ Hs2) in H.
  apply key_inj in H as [Hf Hh].
  - split; [exact Hf|]. apply (hex_fixed_eq_iff 8). exact Hh.
  - apply hex_chars_no_dot, hex_fixed_is_hex.
  - apply hex_chars_no_dot, hex_fixed_is_hex.
  - rewrite !hex_fixed_length. reflexivity.
Qed.

Lemma Server_filename_injective_witness :
  "cat.jpg" = "cat.jpg" /\
  1730619000000000000 mod 16 ^ 8 = (1730619000000000000 + 16 ^ 8) mod 16 ^ 8.
Proof.
  apply (Server_filename_injective "cat.jpg" "cat.jpg" 1730619000000000000
           (1730619000000000000 + 16 ^ 8) "b08ab000" "b08ab000");
    first [reflexivity | split; [vm_compute; discriminate|reflexivity]].
Defined.

(** ** The server's routes *)

Lemma UploadFileToR2_ok svc key buf ct st st' :
  S3.UploadFileToR2 svc key buf ct st = (None, st') ->
  Store.put key buf ct st = (Ok tt, st').
Proof.
  unfold S3.UploadFileToR2. destruct (Store.put key buf ct st) as [[[]|e] s1];
    intros H; inversion H; reflexivity.
Qed.

Lemma UploadFileToR2_failed svc key buf ct st st' e :
  S3.UploadFileToR2 svc key buf ct st = (Some e, st') ->
  Store.objects st' = Store.objects st.
Proof.
  unfold S3.UploadFileToR2. rewrite put_call. pose proof (call_objects st) as Ho.
  destruct (fst (Store.call st)); intros H; inversion H; subst. exact Ho.
Qed.

Lemma GetFileFromR2_found svc key st o :
  fst (Store.call st) = false ->
  Store.objects st !! key = Some o ->
  S3.GetFileFromR2 svc key st
  = (Ok (Store.body o, default "" (Store.contentType o)), snd (Store.call st)).
Proof.
  intros Hcall Ho. unfold S3.GetFileFromR2. rewrite (get_ok key st Hcall), Ho.
  reflexivity.
Qed.

(** X17. On the server, an accepted upload can be fetched back: when the
    put succeeds, the route answers with a [filename], and a GET of that
    key made next (its store call going through) is answered 200 with
    the uploaded bytes and the declared content type. *)
Theorem Server_upload_then_get (svc : S3.S3Service) (c : Fiber.Ctx)
    (fh : Fiber.FileHeader) (buf : list Byte.byte) (h : string) (now : Z)
    (st st' : Store.t) :
  Fiber.FormFile c "file" = Ok fh ->
  Go.HasPrefix (Fiber.Header_Get fh "Content-Type") "image/" = true ->
  Fiber.data fh = Fiber.Readable buf ->
  Server.hash now = Returned h ->
  S3.UploadFileToR2 svc (Server.filename (Fiber.Filename fh) h) buf
    (Fiber.Header_Get fh "Content-Type") st = (None, st') ->
  fst (Store.call st') = false ->
  exists response key response',
    Server.upload svc c now st = (Returned response, st') /\
    Json_field (Response.body response) "filename" = Some key /\
    Server.get svc key st' = (response', snd (Store.call st')) /\
    Response.status response' = 200 /\
    Response.body response' = Bytes buf /\
    Headers.get (Response.headers response') "Content-Type"
    = Some (Fiber.Header_Get fh "Content-Type").
Proof.
  intros Hfile Hty Hdata Hhash Hput Hcall.
  unfold Server.upload. rewrite Hfile, Hty, Hdata, Hhash. cbn [negb]. rewrite Hput.
  apply UploadFileToR2_ok in Hput. destruct (put_ok _ _ _ _ _ Hput) as [Ho _].
  eexists _, _, _. split; [reflexivity|]. split; [reflexivity|].
  unfold Server.get.
  erewrite GetFileFromR2_found;
    [|exact Hcall|rewrite Ho; apply lookup_insert_eq].
  split; [reflexivity|]. split; [reflexivity|]. split; [reflexivity|].
  cbn. unfold Headers.get, Headers.set. apply lookup_insert_eq.
Qed.

Lemma Server_upload_then_get_witness :
  let fh := Fiber.mkFileHeader "cat.jpg"
              (Headers.of_list [("Content-Type", "image/jpeg")])
              (Fiber.Readable [Byte.x01; Byte.x02]) in
  let svc := S3.mkS3Service "acct" "id" "secret" "images" in
  let st := Store.mk ∅ [] (fun _ => "etag") in
  let st' := snd (Store.put "cat-b08ab000.jpg" [Byte.x01; Byte.x02]
                    "image/jpeg" st) in
  exists response key response',
    Server.upload svc (Fiber.mkCtx (Some [("file", fh)])) 1730619000000000000 st
    = (Returned response, st') /\
    Json_field (Response.body response) "filename" = Some key /\
    Server.get svc key st' = (response', st') /\
    Response.status response' = 200 /\
    Response.body response' = Bytes [Byte.x01; Byte.x02] /\
    Headers.get (Response.headers response') "Content-Type" = Some "image/jpeg".
Proof.
  intros fh svc st st'.
  apply (Server_upload_then_get svc (Fiber.mkCtx (Some [("file", fh)])) fh
           [Byte.x01; Byte.x02] "b08ab000" 1730619000000000000 st st');
    reflexivity.
Defined.

(** X18. The server's upload route changes the bucket only when it
    answers 200, and then only at the key it reports: an answer 200 means
    the uploaded bytes are stored under the [filename] of the answer,
    every other key being as before; any other outcome (400, 500 or a
    panic) leaves all objects as they were. *)
Theorem Server_upload_frame (svc : S3.S3Service) (c : Fiber.Ctx) (now : Z)
    (st st' : Store.t) (out : outcome Response.t) :
  Server.upload svc c now st = (out, st') ->
  (forall response,
      out = Returned response -> Response.status response = 200 ->
      exists fh buf key,
        Fiber.FormFile c "file" = Ok fh /\
        Fiber.data fh = Fiber.Readable buf /\
        Json_field (Response.body response) "filename" = Some key /\
        Store.objects st' !! key
        = Some (Store.mkObject buf (Some (Fiber.Header_Get fh "Content-Type"))
                  (Store.etag_of st buf)) /\
        forall k, k <> key -> Store.objects st' !! k = Store.objects st !! k) /\
  ((forall response, out = Returned response -> Response.status response <> 200) ->
   Store.objects st' = Store.objects st).
Proof.
  unfold Server.upload.
  destruct (Fiber.FormFile c "file") as [fh|e] eqn:Hfile.
  2:{ intros H; inversion H; subst. split; [|reflexivity].
      intros r Hr Hs. inversion Hr; subst. discriminate. }
  destruct (negb _) eqn:Hty.
  { intros H; inversion H; subst. split; [|reflexivity].
    intros r Hr Hs. inversion Hr; subst. discriminate. }
  destruct (Fiber.data fh) as [| |buf] eqn:Hdata;
    try (intros H; inversion H; subst; split; [|reflexivity];
         intros r Hr Hs; inversion Hr; subst; discriminate).
  destruct (Server.hash now) as [h|e].
  2:{ intros H; inversion H; subst. split; [|reflexivity].
      intros r Hr Hs. discriminate. }
  destruct (S3.UploadFileToR2 _ _ _ _ st) as [[e|] s1] eqn:Hput.
  - intros H; inversion H; subst. split.
    + intros r Hr Hs. inversion Hr; subst. discriminate.
    + intros _. eapply UploadFileToR2_failed. exact Hput.
  - intros H; inversion H; subst. apply UploadFileToR2_ok in Hput.
    destruct (put_ok _ _ _ _ _ Hput) as [Ho _]. split.
    + intros r Hr _. inversion Hr; subst.
      exists fh, buf, (Server.filename (Fiber.Filename fh) h).
      split; [reflexivity|]. split; [exact Hdata|]. split; [reflexivity|].
      rewrite Ho. split; [apply lookup_insert_eq|].
      intros k Hk. apply lookup_insert_ne. congruence.
    + intros Hnot. exfalso. eapply Hnot; reflexivity.
Qed.

Lemma Server_upload_frame_witness :
  let fh := Fiber.mkFileHeader "cat.jpg"
              (Headers.of_list [("Content-Type", "image/jpeg")])
              Fiber.ReadFails in
  let svc := S3.mkS3Service "acct" "id" "secret" "images" in
  let old := Store.mkObject [Byte.x09] (Some "image/gif") "old" in
  let st := Store.mk {[ "dog.gif" := old ]} [] (fun _ => "etag") in
  Store.objects
    (snd (Server.upload svc (Fiber.mkCtx (Some [("file", fh)]))
            1730619000000000000 st))
  = {[ "dog.gif" := old ]}.
Proof.
  intros fh svc old st.
  destruct (Server_upload_frame svc (Fiber.mkCtx (Some [("file", fh)]))
              1730619000000000000 st
              (snd (Server.upload svc (Fiber.mkCtx (Some [("file", fh)]))
                      1730619000000000000 st))
              (Returned (Fiber.JSON 500 [("error", "Failed to read file")])))
    as [_ Hkeep]; [reflexivity|].
  apply Hkeep. intros r Hr. inversion Hr; subst. vm_compute. discriminate.
Defined.

(** X19. The server's retrieval route only reads, and answers 200 or
    500: 200 exactly when its store call goes through and the key is
    present, and then with the stored bytes and the recorded content
    type (the empty string when none is recorded). *)
Theorem Server_get_status (svc : S3.S3Service) (key : string) (st st' : Store.t)
    (response : Response.t) :
  Server.get svc key st = (response, st') ->
  Store.objects st' = Store.objects st /\
  (Response.status response = 200 \/ Response.status response = 500) /\
  (Response.status response = 200 <->
   fst (Store.call st) = false /\ is_Some (Store.objects st !! key)) /\
  (forall o,
      Response.status response = 200 ->
      Store.objects st !! key = Some o ->
      Response.body response = Bytes (Store.body o) /\
      Headers.get (Response.headers response) "Content-Type"
      = Some (default "" (Store.contentType o))).
Proof.
  unfold Server.get, S3.GetFileFromR2, Store.get.
  pose proof (call_objects st) as Ho.
  destruct (Store.call st) as [failing s1]. cbn in Ho. cbn [fst].
  destruct failing.
  - intros H; inversion H; subst. split; [exact Ho|]. split; [right; reflexivity|].
    split; [split; [discriminate|intros [? _]; discriminate]|].
    intros o Hs. discriminate.
  - rewrite Ho. destruct (Store.objects st !! key) as [o|] eqn:Hk.
    + intros H; inversion H; subst. split; [exact Ho|]. split; [left; reflexivity|].
      split; [split; [intros _; split; eauto|reflexivity]|].
      intros o' _ Ho'. inversion Ho'; subst. split; [reflexivity|].
      cbn. unfold Headers.get, Headers.set. apply lookup_insert_eq.
    + intros H; inversion H; subst. split; [exact Ho|]. split; [right; reflexivity|].
      split; [split; [discriminate|intros [_ [? ?]]; discriminate]|].
      intros o Hs. discriminate.
Qed.

Lemma Server_get_status_witness :
  let svc := S3.mkS3Service "acct" "id" "secret" "images" in
  let st :=
    Store.mk {[ "raw" := Store.mkObject [Byte.x01] None "e" ]} [] (fun _ => "") in
  exists response,
    Server.get svc "raw" st = (response, st) /\
    Response.status response = 200 /\
    Headers.get (Response.headers response) "Content-Type" = Some "".
Proof.
  intros svc st.
  destruct (Server_get_status svc "raw" st st (fst (Server.get svc "raw" st)))
    as (_ & _ & Hiff & Hfound); [reflexivity|].
  eexists. split; [reflexivity|].
  assert (Response.status (fst (Server.get svc "raw" st)) = 200) as Hs.
  { apply Hiff. split; [reflexivity|]. eexists. reflexivity. }
  split; [exact Hs|].
  apply (Hfound (Store.mkObject [Byte.x01] None "e") Hs). reflexivity.
Defined.

(** ** The earlier server *)

(** X20. The earlier server accepts a file of any declared content type
    and stores it under the uploaded name itself: when the put succeeds
    the answer is 200, and a GET of that name made next (its store call
    going through) is answered 200 with the uploaded bytes and the
    declared content type. *)
Theorem ServerLegacy_upload_then_get (svc : S3.S3Service) (c : Fiber.Ctx)
    (fh : Fiber.FileHeader) (buf : list Byte.byte) (st st' : Store.t) :
  Fiber.FormFile c "file" = Ok fh ->
  Fiber.data fh = Fiber.Readable buf ->
  S3.UploadFileToR2 svc (Fiber.Filename fh) buf
    (Fiber.Header_Get fh "Content-Type") st = (None, st') ->
  fst (Store.call st') = false ->
  exists response response',
    ServerLegacy.upload svc c st = (response, st') /\
    Response.status response = 200 /\
    ServerLegacy.get svc (Fiber.Filename fh) st' = (response', snd (Store.call st')) /\
    Response.status response' = 200 /\
    Response.body response' = Bytes buf /\
    Headers.get (Response.headers response') "Content-Type"
    = Some (Fiber.Header_Get fh "Content-Type").
Proof.
  intros Hfile Hdata Hput Hcall.
  rewrite (ServerLegacy_upload_answer svc c fh buf st st' Hfile Hdata Hput).
  apply UploadFileToR2_ok in Hput. destruct (put_ok _ _ _ _ _ Hput) as [Ho _].
  eexists _, _. split; [reflexivity|]. split; [reflexivity|].
  unfold ServerLegacy.get.
  erewrite GetFileFromR2_found;
    [|exact Hcall|rewrite Ho; apply lookup_insert_eq].
  split; [reflexivity|]. split; [reflexivity|]. split; [reflexivity|].
  cbn. unfold Headers.get, Headers.set. apply lookup_insert_eq.
Qed.

Lemma ServerLegacy_upload_then_get_witness :
  let fh := Fiber.mkFileHeader "notes.pdf"
              (Headers.of_list [("Content-Type", "application/pdf")])
              (Fiber.Readable [Byte.x25; Byte.x50]) in
  let svc := S3.mkS3Service "acct" "id" "secret" "files" in
  let st := Store.mk ∅ [] (fun _ => "etag") in
  let st' := snd (Store.put "notes.pdf" [Byte.x25; Byte.x50] "application/pdf" st) in
  exists response response',
    ServerLegacy.upload svc (Fiber.mkCtx (Some [("file", fh)])) st
    = (response, st') /\
    Response.status response = 200 /\
    ServerLegacy.get svc "notes.pdf" st' = (response', st') /\
    Response.status response' = 200 /\
    Response.body response' = Bytes [Byte.x25; Byte.x50] /\
    Headers.get (Response.headers response') "Content-Type"
    = Some "application/pdf".
Proof.
  intros fh svc st st'.
  apply (ServerLegacy_upload_then_get svc (Fiber.mkCtx (Some [("file", fh)])) fh
           [Byte.x25; Byte.x50] st st'); reflexivity.
Defined.

(** X21. On the earlier server two uploads of one name always meet: when
    both puts succeed, the bucket ends holding the second payload alone
    under that name, the first being replaced, whenever the uploads
    happen. *)
Theorem ServerLegacy_same_name (svc : S3.S3Service) (c1 c2 : Fiber.Ctx)
    (fh1 fh2 : Fiber.FileHeader) (buf1 buf2 : list Byte.byte)
    (st st1 st2 : Store.t) :
  Fiber.FormFile c1 "file" = Ok fh1 -> Fiber.data fh1 = Fiber.Readable buf1 ->
  Fiber.FormFile c2 "file" = Ok fh2 -> Fiber.data fh2 = Fiber.Readable buf2 ->
  Fiber.Filename fh1 = Fiber.Filename fh2 ->
  S3.UploadFileToR2 svc (Fiber.Filename fh1) buf1
    (Fiber.Header_Get fh1 "Content-Type") st = (None, st1) ->
  S3.UploadFileToR2 svc (Fiber.Filename fh2) buf2
    (Fiber.Header_Get fh2 "Content-Type") st1 = (None, st2) ->
  snd (ServerLegacy.upload svc c1 st) = st1 /\
  snd (ServerLegacy.upload svc c2 st1) = st2 /\
  Store.objects st2
  = <[Fiber.Filename fh1 :=
        Store.mkObject buf2 (Some (Fiber.Header_Get fh2 "Content-Type"))
          (Store.etag_of st buf2)]> (Store.objects st).
Proof.
  intros Hf1 Hd1 Hf2 Hd2 Hname Hput1 Hput2.
  rewrite (ServerLegacy_upload_answer svc c1 fh1 buf1 st st1 Hf1 Hd1 Hput1).
  rewrite (ServerLegacy_upload_answer svc c2 fh2 buf2 st1 st2 Hf2 Hd2 Hput2).
  split; [reflexivity|]. split; [reflexivity|].
  apply UploadFileToR2_ok in Hput1, Hput2.
  destruct (put_ok _ _ _ _ _ Hput1) as [Ho1 He1].
  destruct (put_ok _ _ _ _ _ Hput2) as [Ho2 He2].
  rewrite Ho2, Ho1, He1, <- Hname. apply insert_insert_eq.
Qed.

Lemma ServerLegacy_same_name_witness :
  let fh1 := Fiber.mkFileHeader "cat.jpg"
               (Headers.of_list [("Content-Type", "image/jpeg")])
               (Fiber.Readable [Byte.x01]) in
  let fh2 := Fiber.mkFileHeader "cat.jpg"
               (Headers.of_list [("Content-Type", "image/png")])
               (Fiber.Readable [Byte.x02]) in
  let svc := S3.mkS3Service "acct" "id" "secret" "files" in
  let st := Store.mk ∅ [] (fun _ => "etag") in
  let st1 := snd (Store.put "cat.jpg" [Byte.x01] "image/jpeg" st) in
  let st2 := snd (Store.put "cat.jpg" [Byte.x02] "image/png" st1) in
  snd (ServerLegacy.upload svc (Fiber.mkCtx (Some [("file", fh1)])) st) = st1 /\
  snd (ServerLegacy.upload svc (Fiber.mkCtx (Some [("file", fh2)])) st1) = st2 /\
  Store.objects st2
  = <["cat.jpg" := Store.mkObject [Byte.x02] (Some "image/png") "etag"]> ∅.
Proof.
  intros fh1 fh2 svc st st1 st2.
  apply (ServerLegacy_same_name svc (Fiber.mkCtx (Some [("file", fh1)]))
           (Fiber.mkCtx (Some [("file", fh2)])) fh1 fh2 [Byte.x01] [Byte.x02]
           st st1 st2); reflexivity.
Defined.

Lemma legacy_credentials_test env :
  Text.eqb (Server.Getenv env "CLOUDFLARE_ACCOUNT_ID") "" ||
  Text.eqb (Server.Getenv env "CLOUDFLARE_ACCESS_KEY_ID") "" ||
  Text.eqb (Server.Getenv env "CLOUDFLARE_SECRET_ACCESS_KEY") "" ||
  Text.eqb (Server.Getenv env "CLOUDFLARE_BUCKET_NAME") "" = true
  <-> exists key, key ∈ ServerLegacy.credentials /\ Spec.missing env key.
Proof.
  unfold ServerLegacy.credentials.
  rewrite !orb_true_iff, !eqb_true, !Getenv_empty. split.
  - intros [[[H|H]|H]|H]; eexists; (split; [|exact H]); set_solver.
  - intros (key & Hin & H).
    repeat (apply elem_of_cons in Hin as [->|Hin]; [tauto|]).
    apply elem_of_nil in Hin. contradiction.
Qed.

(** X22. The earlier server never listens with a credential missing: if
    the [.env] file cannot be loaded start-up is fatal with "Error
    loading .env file"; if, once [.env] is loaded, one of its four
    variables (the secret being read from
    [CLOUDFLARE_SECRET_ACCESS_KEY]) is unset or empty, it is fatal with
    "missing required environment variables"; otherwise an error of the
    SDK configuration, and after that an error of the listener, is fatal
    with that error; and when it does listen, it is on port 3000, the
    listener having started, with those four values, none empty. *)
Theorem ServerLegacy_startup (dotenv : option (gmap string string))
    (env : gmap string string) (sdk listen : result unit) :
  (dotenv = None ->
   ServerLegacy.main dotenv env sdk listen
   = Server.Fatal "Error loading .env file") /\
  (forall vars,
      dotenv = Some vars ->
      (exists key, key ∈ ServerLegacy.credentials /\
                   Spec.missing (env ∪ vars) key) ->
      ServerLegacy.main dotenv env sdk listen
      = Server.Fatal "missing required environment variables") /\
  (forall vars e,
      dotenv = Some vars ->
      ~ (exists key, key ∈ ServerLegacy.credentials /\
                     Spec.missing (env ∪ vars) key) ->
      sdk = Err e \/ sdk = Ok tt /\ listen = Err e ->
      ServerLegacy.main dotenv env sdk listen = Server.Fatal e) /\
  (forall svc addr,
      ServerLegacy.main dotenv env sdk listen = Server.Listening svc addr ->
      addr = ":3000" /\ listen = Ok tt /\
      exists vars,
        dotenv = Some vars /\
        svc = S3.mkS3Service
                (Server.Getenv (env ∪ vars) "CLOUDFLARE_ACCOUNT_ID")
                (Server.Getenv (env ∪ vars) "CLOUDFLARE_ACCESS_KEY_ID")
                (Server.Getenv (env ∪ vars) "CLOUDFLARE_SECRET_ACCESS_KEY")
                (Server.Getenv (env ∪ vars) "CLOUDFLARE_BUCKET_NAME") /\
        S3.account svc <> "" /\ S3.accessKey svc <> "" /\
        S3.secretKey svc <> "" /\ S3.bucket svc <> "").
Proof.
  unfold ServerLegacy.main, Server.godotenv_Load.
  destruct dotenv as [vars|].
  2:{ split; [reflexivity|]. split; [intros vars H; discriminate|].
      split; [intros vars e H; discriminate|]. intros svc addr H. discriminate. }
  split; [discriminate|].
  unfold ServerLegacy.NewR2Service.
  pose proof (legacy_credentials_test (env ∪ vars)) as Ht.
  destruct (_ || _ || _ || _) eqn:Htest.
  - split; [intros vars' _ _; reflexivity|]. split.
    + intros vars' e Hv Hnone. inversion Hv; subst. exfalso. apply Hnone.
      apply Ht. reflexivity.
    + intros svc addr H. discriminate.
  - assert (~ exists key, key ∈ ServerLegacy.credentials /\
                          Spec.missing (env ∪ vars) key) as Hnone
        by (intros H; apply Ht in H; discriminate).
    split.
    { intros vars' Hv Hmiss. inversion Hv; subst. contradiction. }
    split.
    { intros vars' e _ _ [-> | [-> ->]]; reflexivity. }
    intros svc addr H. destruct sdk as [[]|e]; [|discriminate].
    destruct listen as [[]|e]; [|discriminate].
    inversion H; subst. split; [reflexivity|]. split; [reflexivity|].
    exists vars. split; [reflexivity|]. split; [reflexivity|]. cbn.
    repeat split; intros Hempty; apply Hnone; eexists;
      (split; [|apply Getenv_empty; exact Hempty]);
      apply list_elem_of_In; cbn; tauto.
Qed.

Lemma ServerLegacy_startup_witness :
  let env : gmap string string :=
    <["CLOUDFLARE_ACCOUNT_ID" := "acct"]>
      (<["CLOUDFLARE_ACCESS_KEY_ID" := "id"]>
         (<["CLOUDFLARE_ACCESS_KEY_SECRET" := "secret"]>
            (<["CLOUDFLARE_BUCKET_NAME" := "images"]> ∅))) in
  let legacy_env : gmap string string :=
    <["CLOUDFLARE_SECRET_ACCESS_KEY" := "secret"]> env in
  (exists svc,
      Server.main (Some ∅) env (Ok tt) (Ok tt) = Server.Listening svc ":8081") /\
  ServerLegacy.main (Some ∅) env (Ok tt) (Ok tt)
  = Server.Fatal "missing required environment variables" /\
  ServerLegacy.main None legacy_env (Ok tt) (Ok tt)
  = Server.Fatal "Error loading .env file" /\
  ServerLegacy.main (Some ∅) legacy_env (Ok tt)
    (Err "listen tcp :3000: bind: address already in use")
  = Server.Fatal "listen tcp :3000: bind: address already in use" /\
  S3.secretKey (S3.mkS3Service "acct" "id" "secret" "images") <> "".
Proof.
  intros env legacy_env. split; [eexists; reflexivity|].
  split; [|split; [|split]].
  - destruct (ServerLegacy_startup (Some ∅) env (Ok tt) (Ok tt))
      as (_ & Hmissing & _).
    apply (Hmissing ∅); [reflexivity|].
    exists "CLOUDFLARE_SECRET_ACCESS_KEY". split; [|left; reflexivity].
    apply list_elem_of_In. cbn. tauto.
  - destruct (ServerLegacy_startup None legacy_env (Ok tt) (Ok tt)) as [Hnone _].
    apply Hnone. reflexivity.
  - destruct (ServerLegacy_startup (Some ∅) legacy_env (Ok tt)
                (Err "listen tcp :3000: bind: address already in use"))
      as (_ & _ & Herr & _).
    apply (Herr ∅); [reflexivity| |right; split; reflexivity].
    intros H. apply legacy_credentials_test in H. vm_compute in H. discriminate.
  - destruct (ServerLegacy_startup (Some ∅) legacy_env (Ok tt) (Ok tt))
      as (_ & _ & _ & Hlisten).
    destruct (Hlisten (S3.mkS3Service "acct" "id" "secret" "images") ":3000")
      as (_ & _ & vars & _ & _ & _ & _ & Hsecret & _); [reflexivity|].
    exact Hsecret.
Defined.

(** ** The browser client *)

Lemma onDrop_answered api file rest net ui response :
  net "POST" (api +:+ "/upload") [("file", FieldFile file)] = Returned response ->
  App.onDrop api (file :: rest) net ui
  = if App.ok response
    then match App.json response with
         | Returned data =>
             (App.mkState
                (api +:+ "/" +:+ JS.to_string (App.field data "filename")) ""
                false,
              [App.toast_success (App.field data "message")])
         | Thrown _ =>
             (App.mkState (App.imageUrl ui)
                "Failed to upload image. Please try again." false,
              [App.toast_error "Upload failed"])
         end
    else (App.mkState (App.imageUrl ui)
            "Failed to upload image. Please try again." false,
          [App.toast_error "Upload failed"]).
Proof.
  intros H. unfold App.onDrop. cbn [lookup list_lookup]. rewrite H.
  destruct (App.ok response); cbn [negb]; [|reflexivity].
  destruct (App.json response); reflexivity.
Qed.

Lemma onDrop_failed api file rest net ui e :
  net "POST" (api +:+ "/upload") [("file", FieldFile file)] = Thrown e ->
  App.onDrop api (file :: rest) net ui
  = (App.mkState (App.imageUrl ui)
       "Failed to upload image. Please try again." false,
     [App.toast_error "Upload failed"]).
Proof. intros H. unfold App.onDrop. cbn [lookup list_lookup]. rewrite H. reflexivity. Qed.

Lemma getAllowedOrigin_of_origin request origin :
  Headers.get (Request.headers request) "Origin" = Some origin ->
  Worker.getAllowedOrigin request
  = if bool_decide (origin ∈ Worker.ALLOWED_ORIGINS) then origin
    else "https://img.jer.ee".
Proof.
  intros H. pose proof (getAllowedOrigin_rule request) as R. rewrite H in R.
  unfold Spec.allowed_origin in R.
  destruct (bool_decide (origin ∈ Worker.ALLOWED_ORIGINS)); inversion R;
    reflexivity.
Qed.

(** An answer carrying the worker's origin choice reaches a cross-origin
    page only when the page's origin is listed. *)
Lemma delivered_worker_answer origin cross_origin request response :
  Headers.get (Request.headers request) "Origin" = Some origin ->
  Headers.get (Response.headers response) "Access-Control-Allow-Origin"
  = Some (Worker.getAllowedOrigin request) ->
  App.delivered origin cross_origin (Returned response)
  = if cross_origin && negb (bool_decide (origin ∈ Worker.ALLOWED_ORIGINS))
    then Thrown "TypeError: Failed to fetch"
    else Returned response.
Proof.
  intros Ho Hc. unfold App.delivered. rewrite Hc.
  rewrite (getAllowedOrigin_of_origin request origin Ho).
  destruct (bool_decide (origin ∈ Worker.ALLOWED_ORIGINS)) eqn:Hin.
  - rewrite eqb_refl. reflexivity.
  - apply bool_decide_eq_false in Hin.
    assert (Text.eqb "https://img.jer.ee" origin = false) as ->.
    { apply eqb_false. intros <-. apply Hin. unfold Worker.ALLOWED_ORIGINS.
      set_solver. }
    reflexivity.
Qed.

(** X23. Client and worker together, with the browser between them: when
    the client's upload address is routed to [/img/upload], dropping a
    file leaves the client idle again; the worker stores the file exactly
    when it is an image and the put goes through; and the client shows
    the address of the stored key, with no error text, exactly when in
    addition the answer reaches the page, that is when the request is
    same-origin or the page's origin is on the worker's allow-list.
    Otherwise the previous address stays and the error text is set: in
    particular, from an unlisted origin the file is stored and the
    client still reports a failure. *)
Theorem onDrop_with_worker (api : string) (pathname_of : string -> string)
    (headers : gmap string string) (origin : string) (cross_origin : bool)
    (file : File.t) (rest : list File.t) (now : Z) (st : Store.t)
    (ui : App.State) :
  pathname_of (api +:+ "/upload") = "/img/upload" ->
  Headers.get headers "Origin" = Some origin ->
  let worker method url body :=
    Worker.fetch (Request.mk method (pathname_of url) headers (Some body))
      now st in
  let st' := snd (worker "POST" (api +:+ "/upload") [("file", FieldFile file)]) in
  let ui' :=
    fst (App.onDrop api (file :: rest)
           (fun method url body =>
              App.delivered origin cross_origin (fst (worker method url body)))
           ui) in
  let key := Worker.filename (File.name file) now in
  let stored :=
    JS.startsWith (File.type file) "image/" && negb (fst (Store.call st)) in
  let readable :=
    negb cross_origin || bool_decide (origin ∈ Worker.ALLOWED_ORIGINS) in
  App.isUploading ui' = false /\
  (if stored
   then Store.objects st' !! key = Some (Spec.stored file st)
   else Store.objects st' = Store.objects st) /\
  (if stored && readable
   then App.imageUrl ui' = api +:+ "/" +:+ key /\ App.error ui' = ""
   else App.imageUrl ui' = App.imageUrl ui /\
        App.error ui' = "Failed to upload image. Please try again.").
Proof.
  intros Hroute Horigin worker st' ui' key stored readable.
  set (request := Request.mk "POST" "/img/upload" headers
                    (Some [("file", FieldFile file)])).
  assert (worker "POST" (api +:+ "/upload") [("file", FieldFile file)]
          = Worker.handleUpload request now st) as Hw.
  { unfold worker. rewrite Hroute. reflexivity. }
  assert (forall r,
             App.delivered origin cross_origin (Returned r)
             = (if cross_origin &&
                   negb (bool_decide (origin ∈ Worker.ALLOWED_ORIGINS))
                then Thrown "TypeError: Failed to fetch" else Returned r) ->
             fst (Worker.handleUpload request now st) = Returned r ->
             fst (App.onDrop api (file :: rest)
                    (fun method url body =>
                       App.delivered origin cross_origin
                         (fst (worker method url body))) ui)
             = if readable
               then fst (App.onDrop api (file :: rest)
                           (fun _ _ _ => Returned r) ui)
               else App.mkState (App.imageUrl ui)
                      "Failed to upload image. Please try again." false)
    as Hclient.
  { intros r Hd Hr. unfold readable.
    destruct (cross_origin && negb (bool_decide (origin ∈ Worker.ALLOWED_ORIGINS)))
      eqn:Hblock.
    - erewrite onDrop_failed by (cbn beta; rewrite Hw, Hr, Hd; reflexivity).
      apply andb_true_iff in Hblock as [-> Hn].
      apply negb_true_iff in Hn. rewrite Hn. reflexivity.
    - erewrite (onDrop_answered api file rest _ ui r)
        by (cbn beta; rewrite Hw, Hr, Hd; reflexivity).
      rewrite (onDrop_answered api file rest (fun _ _ _ => Returned r) ui r eq_refl).
      destruct cross_origin; cbn in Hblock |- *; [|reflexivity].
      apply negb_false_iff in Hblock. rewrite Hblock. reflexivity. }
  assert (forall code msg,
             App.delivered origin cross_origin
               (Returned (upload_error request code msg))
             = (if cross_origin &&
                   negb (bool_decide (origin ∈ Worker.ALLOWED_ORIGINS))
                then Thrown "TypeError: Failed to fetch"
                else Returned (upload_error request code msg))) as Hderr.
  { intros code msg. apply (delivered_worker_answer origin cross_origin request);
      [exact Horigin|]. unfold upload_error. rewrite json_response_headers.
    apply json_headers_cors. }
  unfold ui', st', stored. rewrite Hw.
  destruct (JS.startsWith (File.type file) "image/") eqn:Hty.
  - assert (Spec.valid_image_upload request file) as Hv.
    { split; [|exact Hty]. eexists. split; reflexivity. }
    pose proof (handleUpload_valid request file now st Hv) as E.
    rewrite put_call in E. pose proof (call_objects st) as Ho.
    destruct (fst (Store.call st)) eqn:Hcall; rewrite E; cbn [andb negb snd].
    + rewrite (Hclient _ (Hderr 500 "Failed to upload file"))
        by (rewrite E; reflexivity).
      split; [destruct readable; reflexivity|]. split; [exact Ho|].
      destruct readable; split; reflexivity.
    + assert (App.delivered origin cross_origin (Returned (upload_ok request key))
              = (if cross_origin &&
                    negb (bool_decide (origin ∈ Worker.ALLOWED_ORIGINS))
                 then Thrown "TypeError: Failed to fetch"
                 else Returned (upload_ok request key))) as Hdok.
      { apply (delivered_worker_answer origin cross_origin request);
          [exact Horigin|]. unfold upload_ok. rewrite json_response_headers.
        apply json_headers_cors. }
      rewrite (Hclient _ Hdok) by (rewrite E; reflexivity).
      split; [destruct readable; reflexivity|]. split.
      * cbn. rewrite Ho. apply lookup_insert_eq.
      * destruct readable; split; reflexivity.
  - pose proof (handleUpload_not_image request [("file", FieldFile file)] file
                  now st eq_refl eq_refl Hty) as E.
    rewrite E. cbn [andb snd].
    rewrite (Hclient _ (Hderr 400 "Only image files are allowed"))
      by (rewrite E; reflexivity).
    split; [destruct readable; reflexivity|]. split; [reflexivity|].
    destruct readable; split; reflexivity.
Qed.

Lemma onDrop_with_worker_witness :
  let api := "https://img.jer.ee/img" in
  let cat := File.mk "cat.jpg" "image/jpeg" [Byte.x01] in
  let st := Store.mk ∅ [] (fun _ => "etag") in
  let ui := App.mkState "" "" false in
  let drop_from origin :=
    App.onDrop api [cat]
      (fun method url body =>
         App.delivered origin true
           (fst (Worker.fetch
                   (Request.mk method (Text.drop 18 url)
                      (Headers.of_list [("Origin", origin)]) (Some body))
                   1730619000000 st))) ui in
  App.imageUrl (fst (drop_from "http://localhost:3000"))
  = "https://img.jer.ee/img/cat-f0ee44c0.jpg" /\
  App.error (fst (drop_from "https://evil.example"))
  = "Failed to upload image. Please try again.".
Proof.
  intros api cat st ui drop_from. split.
  - destruct (onDrop_with_worker api (Text.drop 18)
                (Headers.of_list [("Origin", "http://localhost:3000")])
                "http://localhost:3000" true cat [] 1730619000000 st ui)
      as (_ & _ & Hshown); [reflexivity..|].
    exact (proj1 Hshown).
  - destruct (onDrop_with_worker api (Text.drop 18)
                (Headers.of_list [("Origin", "https://evil.example")])
                "https://evil.example" true cat [] 1730619000000 st ui)
      as (_ & _ & Hshown); [reflexivity..|].
    exact (proj2 Hshown).
Defined.

(** X24. Client and earlier server do not fit: whatever upload the
    earlier server accepts, its answer has no [filename], and the client
    then shows the address ending in [/undefined], with no error. *)
Theorem onDrop_with_legacy_server (api : string) (svc : S3.S3Service)
    (c : Fiber.Ctx) (st st' : Store.t) (response : Response.t)
    (file : File.t) (rest : list File.t) (ui : App.State) :
  ServerLegacy.upload svc c st = (response, st') ->
  Response.status response = 200 ->
  let ui' :=
    fst (App.onDrop api (file :: rest) (fun _ _ _ => Returned response) ui) in
  App.imageUrl ui' = api +:+ "/undefined" /\ App.error ui' = "".
Proof.
  intros H Hs. cbn zeta.
  assert (response = Fiber.JSON 200 [("message", "File uploaded successfully")])
    as ->.
  { unfold ServerLegacy.upload in H.
    destruct (Fiber.FormFile c "file") as [fh|e];
      [|inversion H; subst; discriminate].
    destruct (Fiber.data fh);
      try (inversion H; subst; discriminate).
    destruct (S3.UploadFileToR2 _ _ _ _ st) as [[e|] s1];
      inversion H; subst; [discriminate|reflexivity]. }
  rewrite (onDrop_answered api file rest _ ui _ eq_refl). split; reflexivity.
Qed.

Lemma onDrop_with_legacy_server_witness :
  let fh := Fiber.mkFileHeader "cat.jpg"
              (Headers.of_list [("Content-Type", "image/jpeg")])
              (Fiber.Readable [Byte.x01]) in
  let svc := S3.mkS3Service "acct" "id" "secret" "files" in
  let st := Store.mk ∅ [] (fun _ => "etag") in
  let response :=
    fst (ServerLegacy.upload svc (Fiber.mkCtx (Some [("file", fh)])) st) in
  App.imageUrl
    (fst (App.onDrop "http://localhost:3000"
            [File.mk "cat.jpg" "image/jpeg" [Byte.x01]]
            (fun _ _ _ => Returned response) (App.mkState "" "" false)))
  = "http://localhost:3000/undefined".
Proof.
  intros fh svc st response.
  destruct (onDrop_with_legacy_server "http://localhost:3000" svc
              (Fiber.mkCtx (Some [("file", fh)])) st
              (snd (ServerLegacy.upload svc (Fiber.mkCtx (Some [("file", fh)])) st))
              response (File.mk "cat.jpg" "image/jpeg" [Byte.x01]) []
              (App.mkState "" "" false)) as [Hurl _];
    first [exact Hurl | reflexivity].
Defined.

(** X25. Whatever the network does, a drop uploads the first accepted
    file only, an empty drop changes nothing, and a drop with a file
    ends idle with exactly one notification: either success, with the
    error text cleared, or failure, with the error text set and the
    previously shown address kept. *)
Theorem onDrop_settles (api : string) (files : list File.t)
    (net : string -> string -> list (string * FormDataEntryValue) ->
           outcome Response.t)
    (ui : App.State) :
  App.onDrop api files net ui = App.onDrop api (take 1 files) net ui /\
  (files = [] -> App.onDrop api files net ui = (ui, [])) /\
  (files <> [] ->
   let (ui', toasts) := App.onDrop api files net ui in
   App.isUploading ui' = false /\
   ((App.error ui' = "" /\ exists m, toasts = [App.toast_success m]) \/
    (App.error ui' = "Failed to upload image. Please try again." /\
     App.imageUrl ui' = App.imageUrl ui /\
     toasts = [App.toast_error "Upload failed"]))).
Proof.
  split; [destruct files; reflexivity|]. split; [intros ->; reflexivity|].
  intros Hne. destruct files as [|file rest]; [contradiction|].
  unfold App.onDrop. cbn [lookup list_lookup].
  destruct (net _ _ _) as [response|e].
  - destruct (App.ok response); cbn [negb].
    + destruct (App.json response) as [data|e]; (split; [reflexivity|]).
      * left. split; [reflexivity|]. eauto.
      * right. repeat split.
    + split; [reflexivity|]. right. repeat split.
  - split; [reflexivity|]. right. repeat split.
Qed.

Lemma onDrop_settles_witness :
  let cat := File.mk "cat.jpg" "image/jpeg" [Byte.x01] in
  let ui := App.mkState "https://img.jer.ee/img/old.png" "" false in
  let down : string -> string -> list (string * FormDataEntryValue) ->
             outcome Response.t := fun _ _ _ => Thrown "TypeError: Failed to fetch" in
  App.onDrop "https://img.jer.ee/img" [cat] down ui
  = (App.mkState "https://img.jer.ee/img/old.png"
       "Failed to upload image. Please try again." false,
     [App.toast_error "Upload failed"]).
Proof.
  intros cat ui down.
  destruct (onDrop_settles "https://img.jer.ee/img" [cat] down ui)
    as (_ & _ & Hfile).
  specialize (Hfile ltac:(discriminate)). reflexivity.
Defined.

(** ** Through the worker's routes *)

Lemma escape_without_space s :
  Text.contains " " s = false -> URL.escape s = s.
Proof.
  induction s as [|c s IH]; [reflexivity|]. cbn [Text.contains URL.escape].
  destruct (Ascii.eqb c " "); [discriminate|]. intros H. rewrite (IH H).
  reflexivity.
Qed.

Lemma escape_with_space s :
  Text.contains " " s = true -> URL.escape s <> s.
Proof.
  intros H E.
  assert (Text.contains " " (URL.escape s) = false) as Hno.
  { clear. induction s as [|c s IH]; [reflexivity|]. cbn [URL.escape].
    destruct (Ascii.eqb c " ") eqn:Hc.
    - rewrite contains_app, IH. reflexivity.
    - cbn [Text.contains]. rewrite Hc. exact IH. }
  rewrite E in Hno. congruence.
Qed.

(** X26. Upload and retrieval through [fetch], with the address parsed
    in between: a valid image POSTed to [/img/upload] whose put succeeds
    is answered with a [filename]; a GET made next for the path [/img/]
    followed by that name arrives with the name as the URL parser writes
    it, and the worker looks up that text as it stands.  For a name
    without spaces the text is the name, and the GET is answered 200 with
    the uploaded bytes and the declared content type.  For a name with a
    space the text differs from the stored key (the space reads [%20]),
    and the GET is answered 404 unless some object happens to be stored
    under the encoded text: the file just uploaded is not served. *)
Theorem fetch_upload_then_get (file : File.t) (headers headers' : gmap string string)
    (now now' : Z) (st st' : Store.t) (seg : string) :
  JS.startsWith (File.type file) "image/" = true ->
  Store.put (Worker.filename (File.name file) now) (File.stream file)
    (File.type file) st = (Ok tt, st') ->
  fst (Store.call st') = false ->
  URL.segment (Worker.filename (File.name file) now) = Some seg ->
  let key := Worker.filename (File.name file) now in
  exists response response',
    Worker.fetch
      (Request.mk "POST" "/img/upload" headers (Some [("file", FieldFile file)]))
      now st = (Returned response, st') /\
    Json_field (Response.body response) "filename" = Some key /\
    Worker.fetch (Request.mk "GET" ("/img/" +:+ seg) headers' None) now' st'
    = (Returned response', snd (Store.call st')) /\
    (Text.contains " " key = false ->
     seg = key /\
     Response.status response' = 200 /\
     Response.body response' = Bytes (File.stream file) /\
     Headers.get (Response.headers response') "Content-Type"
     = Some (File.type file)) /\
    (Text.contains " " key = true ->
     seg <> key /\
     (Store.objects st' !! seg = None ->
      Response.status response' = 404 /\
      Response.body response' = PlainText "Object Not Found")).
Proof.
  intros Hty Hput Hcall Hseg key0.
  set (upload := Request.mk "POST" "/img/upload" headers
                   (Some [("file", FieldFile file)])).
  set (key := Worker.filename (File.name file) now) in *. subst key0.
  assert (Spec.valid_image_upload upload file) as Hv.
  { split; [|exact Hty]. eexists. split; reflexivity. }
  assert (seg = URL.escape key) as Hesc.
  { unfold URL.segment in Hseg.
    destruct (_ && _) in Hseg; [congruence|discriminate]. }
  destruct (put_ok _ _ _ _ _ Hput) as [Ho _]. fold key in Ho.
  pose proof (get_ok seg st' Hcall) as Hget.
  set (get := Request.mk "GET" ("/img/" +:+ seg) headers' None).
  assert (exists r',
             Worker.handleGet get seg st' = (Returned r', snd (Store.call st')) /\
             (forall o, Store.objects st' !! seg = Some o ->
                        Response.status r' = 200 /\
                        Response.body r' = Bytes (Store.body o) /\
                        Headers.get (Response.headers r') "Content-Type"
                        = Store.contentType o) /\
             (Store.objects st' !! seg = None ->
              Response.status r' = 404 /\
              Response.body r' = PlainText "Object Not Found")) as (r' & E & Hsome & Hnone).
  { destruct (Store.objects st' !! seg) as [o|] eqn:Hlook.
    - destruct (handleGet_found get seg st' _ o Hget) as (r' & E & Hs & Hb & Hct & _).
      exists r'. split; [exact E|]. split; [|discriminate].
      intros o' [= <-]. repeat split; assumption.
    - destruct (handleGet_absent_404 get seg st' Hlook Hcall) as (r' & E & Hs & Hb).
      exists r'. split; [exact E|]. split; [discriminate|].
      intros _. split; assumption. }
  exists (upload_ok upload key), r'. split.
  { change (Worker.fetch upload now st) with (Worker.handleUpload upload now st).
    rewrite (handleUpload_valid upload file now st Hv). fold key.
    rewrite Hput. reflexivity. }
  split; [reflexivity|]. split; [exact E|]. split.
  - intros Hplain. pose proof (escape_without_space key Hplain) as Hid.
    rewrite Hid in Hesc. split; [exact Hesc|].
    apply (Hsome (Store.mkObject (File.stream file) (Some (File.type file))
                    (Store.etag_of st (File.stream file)))).
    rewrite Hesc, Ho. apply lookup_insert_eq.
  - intros Hspace. split; [|exact Hnone].
    rewrite Hesc. apply escape_with_space. exact Hspace.
Qed.

Lemma fetch_upload_then_get_witness :
  let st := Store.mk ∅ [] (fun _ => "etag") in
  let upload file :=
    Worker.fetch
      (Request.mk "POST" "/img/upload" Headers.empty
         (Some [("file", FieldFile file)])) 1730619000000 st in
  let get path st' :=
    Worker.fetch (Request.mk "GET" path Headers.empty None) 1730619000001 st' in
  let cat := File.mk "cat.jpg" "image/jpeg" [Byte.xff; Byte.xd8] in
  let my_cat := File.mk "my cat.jpg" "image/jpeg" [Byte.xff; Byte.xd8] in
  (exists response',
     fst (get "/img/cat-f0ee44c0.jpg" (snd (upload cat))) = Returned response' /\
     Response.status response' = 200 /\
     Response.body response' = Bytes [Byte.xff; Byte.xd8]) /\
  (exists response',
     fst (get "/img/my%20cat-f0ee44c0.jpg" (snd (upload my_cat)))
     = Returned response' /\
     Response.status response' = 404 /\
     Response.body response' = PlainText "Object Not Found").
Proof.
  intros st upload get cat my_cat. split.
  - destruct (fetch_upload_then_get cat Headers.empty Headers.empty
                1730619000000 1730619000001 st
                (snd (Store.put "cat-f0ee44c0.jpg" [Byte.xff; Byte.xd8]
                        "image/jpeg" st))
                "cat-f0ee44c0.jpg")
      as (r & r' & _ & _ & Hget & Hplain & _); [reflexivity..|].
    destruct (Hplain eq_refl) as (_ & Hs & Hb & _).
    exists r'. split; [|split; assumption].
    apply (f_equal fst) in Hget. vm_compute in Hget |- *. exact Hget.
  - destruct (fetch_upload_then_get my_cat Headers.empty Headers.empty
                1730619000000 1730619000001 st
                (snd (Store.put "my cat-f0ee44c0.jpg" [Byte.xff; Byte.xd8]
                        "image/jpeg" st))
                "my%20cat-f0ee44c0.jpg")
      as (r & r' & _ & _ & Hget & _ & Hspace); [reflexivity..|].
    destruct (Hspace eq_refl) as (_ & Habs).
    destruct (Habs eq_refl) as (Hs & Hb).
    exists r'. split; [|split; assumption].
    apply (f_equal fst) in Hget. vm_compute in Hget |- *. exact Hget.
Defined.

(** ** Answers to accepted uploads *)

(** X27. The worker's [handleUpload] and the server's [/upload] route
    answer a valid image upload whose put succeeds alike: 200 with a
    JSON body whose [message] is "Image uploaded successfully" and whose
    [filename] is the key each derives. *)
Theorem upload_success_answer :
  (forall request file now st st',
      Spec.valid_image_upload request file ->
      Store.put (Worker.filename (File.name file) now) (File.stream file)
        (File.type file) st = (Ok tt, st') ->
      exists response,
        Worker.handleUpload request now st = (Returned response, st') /\
        Response.status response = 200 /\
        Json_field (Response.body response) "message"
        = Some "Image uploaded successfully" /\
        Json_field (Response.body response) "filename"
        = Some (Worker.filename (File.name file) now)) /\
  (forall svc c fh buf h now st st',
      Fiber.FormFile c "file" = Ok fh ->
      Go.HasPrefix (Fiber.Header_Get fh "Content-Type") "image/" = true ->
      Fiber.data fh = Fiber.Readable buf ->
      Server.hash now = Returned h ->
      S3.UploadFileToR2 svc (Server.filename (Fiber.Filename fh) h) buf
        (Fiber.Header_Get fh "Content-Type") st = (None, st') ->
      exists response,
        Server.upload svc c now st = (Returned response, st') /\
        Response.status response = 200 /\
        Json_field (Response.body response) "message"
        = Some "Image uploaded successfully" /\
        Json_field (Response.body response) "filename"
        = Some (Server.filename (Fiber.Filename fh) h)).
Proof.
  split.
  - intros request file now st st' Hvalid Hput.
    rewrite (handleUpload_valid request file) by assumption. rewrite Hput.
    eexists. repeat split.
  - intros svc c fh buf h now st st' Hfile Hty Hdata Hhash Hput.
    unfold Server.upload. rewrite Hfile, Hty, Hdata, Hhash. cbn [negb].
    rewrite Hput. eexists. repeat split.
Qed.

Lemma upload_success_answer_witness :
  let st := Store.mk ∅ [] (fun _ => "etag") in
  let cat := File.mk "cat.jpg" "image/jpeg" [Byte.x01; Byte.x02] in
  let fh := Fiber.mkFileHeader "cat.jpg"
              (Headers.of_list [("Content-Type", "image/jpeg")])
              (Fiber.Readable [Byte.x01; Byte.x02]) in
  let svc := S3.mkS3Service "acct" "id" "secret" "images" in
  (exists response st',
      Worker.handleUpload
        (Request.mk "POST" "/img/upload" Headers.empty
           (Some [("file", FieldFile cat)])) 1730619000000 st
      = (Returned response, st') /\
      Response.status response = 200 /\
      Json_field (Response.body response) "filename" = Some "cat-f0ee44c0.jpg") /\
  (exists response st',
      Server.upload svc (Fiber.mkCtx (Some [("file", fh)]))
        1730619000000000000 st
      = (Returned response, st') /\
      Response.status response = 200 /\
      Json_field (Response.body response) "filename" = Some "cat-b08ab000.jpg").
Proof.
  intros st cat fh svc.
  destruct upload_success_answer as (W & S). split.
  - destruct (W (Request.mk "POST" "/img/upload" Headers.empty
                   (Some [("file", FieldFile cat)])) cat 1730619000000 st
                (snd (Store.put "cat-f0ee44c0.jpg" (File.stream cat)
                        (File.type cat) st)))
      as (r & E & Hs & _ & Hf).
    + split; [|reflexivity]. eexists. split; reflexivity.
    + reflexivity.
    + exists r. eexists. split; [exact E|]. split; [exact Hs|exact Hf].
  - destruct (S svc (Fiber.mkCtx (Some [("file", fh)])) fh
                [Byte.x01; Byte.x02] "b08ab000" 1730619000000000000 st
                (snd (Store.put "cat-b08ab000.jpg" [Byte.x01; Byte.x02]
                        "image/jpeg" st)))
      as (r & E & Hs & _ & Hf); try reflexivity.
    exists r. eexists. split; [exact E|]. split; [exact Hs|exact Hf].
Defined.
